(** * tempdash: the log-extraction and CSV-export pipeline of the dashboard

    A shallow embedding of [src/dashboard-preload.js] (the Electron main
    process of the dashboard): [initializeDbModule], [readDbFileAndQuery]
    and the [load-database-log] / [export-to-csv] IPC handlers, followed by
    the properties of the specification that concern them.

    JavaScript values are an inductive type, objects are association lists
    in own-key order, thrown errors are an explicit completion, and the
    outside world (file system, sql.js, dialogs) is a record of oracles
    with every call logged in an event trace. *)

From Stdlib Require Import List String Ascii ZArith Lia Bool DecimalString.
From Stdlib Require Import Sorted Permutation.
Import ListNotations.
Open Scope string_scope.

(* ================================================================== *)
(** ** The JavaScript fragment the program uses *)
(* ================================================================== *)

Module Js.

(** The double quote character and the line feed, by character code. *)
Definition dquote : ascii := "034"%char.
Definition newline : string := String "010"%char EmptyString.

(** A Number value.  A finite non-zero number is given by the decimal
    triple of ECMAScript's Number::toString: the digits [s] (with [k] the
    number of digits) and the exponent [n], for the value [s * 10^(n-k)]. *)
Inductive JsNumber : Type :=
| NaN
| Infinity (negative : bool)
| Zero (negative : bool)
| Finite (negative : bool) (s : positive) (n : Z).

Definition digits_of (s : positive) : string :=
  NilEmpty.string_of_uint (Pos.to_uint s).

Fixpoint zeros (n : nat) : string :=
  match n with
  | O => EmptyString
  | S m => String "0"%char (zeros m)
  end.

(** Number::toString, radix 10. *)
Definition Number_toString (x : JsNumber) : string :=
  match x with
  | NaN => "NaN"
  | Zero _ => "0"
  | Infinity neg => (if neg then "-" else "") ++ "Infinity"
  | Finite neg s n =>
      let d := digits_of s in
      let k := Z.of_nat (String.length d) in
      let body :=
        if ((k <=? n) && (n <=? 21))%Z then
          d ++ zeros (Z.to_nat (n - k))
        else if ((0 <? n) && (n <=? 21))%Z then
          substring 0 (Z.to_nat n) d ++ "." ++
          substring (Z.to_nat n) (Z.to_nat (k - n)) d
        else if ((-6 <? n) && (n <=? 0))%Z then
          "0." ++ zeros (Z.to_nat (- n)) ++ d
        else
          let e := (n - 1)%Z in
          let ex := (if (e <? 0)%Z then "-" else "+") ++
                    NilZero.string_of_uint (N.to_uint (Z.to_N (Z.abs e))) in
          if (k =? 1)%Z then d ++ "e" ++ ex
          else substring 0 1 d ++ "." ++
               substring 1 (Z.to_nat (k - 1)) d ++ "e" ++ ex
      in (if neg then "-" else "") ++ body
  end.

(** A value.  [VObject text] stands for any value that is not a primitive
    (an array, a typed array, a nested object), given with the text that
    ToString yields for it. *)
Inductive Value : Type :=
| VUndefined
| VNull
| VBool (b : bool)
| VNumber (x : JsNumber)
| VString (s : string)
| VObject (text : string).

Definition ToString (v : Value) : string :=
  match v with
  | VUndefined => "undefined"
  | VNull => "null"
  | VBool true => "true"
  | VBool false => "false"
  | VNumber x => Number_toString x
  | VString s => s
  | VObject text => text
  end.

(** What Array.prototype.join writes for one element: nothing for
    [undefined] and [null], ToString otherwise. *)
Definition join_element (v : Value) : string :=
  match v with
  | VUndefined | VNull => EmptyString
  | _ => ToString v
  end.

(** [arr.join(sep)] *)
Definition Array_join (sep : string) (arr : list Value) : string :=
  String.concat sep (map join_element arr).

(** [s.includes(sub)] *)
Fixpoint includes (sub s : string) : bool :=
  if prefix sub s then true
  else match s with
       | EmptyString => false
       | String _ rest => includes sub rest
       end.

(** [s.replace(/c/g, by)] for a single-character pattern [c]. *)
Fixpoint replace_all (c : ascii) (by_ : string) (s : string) : string :=
  match s with
  | EmptyString => EmptyString
  | String a rest =>
      if Ascii.eqb a c then by_ ++ replace_all c by_ rest
      else String a (replace_all c by_ rest)
  end.

(** [s.toUpperCase()] on ASCII text: the letters a-z are mapped to A-Z and
    every other character is kept. *)
Definition upper_char (a : ascii) : ascii :=
  let n := nat_of_ascii a in
  if (97 <=? n)%nat && (n <=? 122)%nat then ascii_of_nat (n - 32) else a.

Fixpoint toUpperCase (s : string) : string :=
  match s with
  | EmptyString => EmptyString
  | String a rest => String (upper_char a) (toUpperCase rest)
  end.

(** An ordinary object: its own enumerable string-keyed properties, in the
    order Object.keys lists them. *)
Definition JsObject : Type := list (string * Value).

Definition Object_keys (o : JsObject) : list string := map fst o.

(** The own property of [o] under [key], if there is one. *)
Fixpoint own (o : JsObject) (key : string) : option Value :=
  match o with
  | [] => None
  | (k, v) :: rest => if String.eqb k key then Some v else own rest key
  end.

(** A built-in function, as a value: it is no primitive and prints as
    native code. *)
Definition native (name : string) : Value :=
  VObject ("function " ++ name ++ "() { [native code] }").

(** What an ordinary object inherits from Object.prototype: the methods
    of that object and, under [__proto__], the prototype itself. *)
Definition Object_prototype : JsObject :=
  [ ("constructor", native "Object");
    ("__defineGetter__", native "__defineGetter__");
    ("__defineSetter__", native "__defineSetter__");
    ("hasOwnProperty", native "hasOwnProperty");
    ("__lookupGetter__", native "__lookupGetter__");
    ("__lookupSetter__", native "__lookupSetter__");
    ("isPrototypeOf", native "isPrototypeOf");
    ("propertyIsEnumerable", native "propertyIsEnumerable");
    ("toString", native "toString");
    ("valueOf", native "valueOf");
    ("__proto__", VObject "[object Object]");
    ("toLocaleString", native "toLocaleString") ].

(** The value a key has by inheritance, if any. *)
Definition inherited (key : string) : option Value := own Object_prototype key.

(** [o[key]] on an ordinary object: the own property when there is one,
    else the member inherited from Object.prototype, else [undefined]. *)
Definition get (o : JsObject) (key : string) : Value :=
  match own o key with
  | Some v => v
  | None =>
      match inherited key with
      | Some v => v
      | None => VUndefined
      end
  end.

Definition has (o : JsObject) (key : string) : bool :=
  existsb (String.eqb key) (Object_keys o).

(** A canonical array index: a decimal numeral without leading zero, below
    2^32 - 1.  Such keys are listed first by Object.keys, in ascending
    numeric order; the other keys follow in insertion order. *)
Definition array_index (key : string) : option N :=
  match NilEmpty.uint_of_string key with
  | Some u =>
      let n := N.of_uint u in
      if String.eqb (NilZero.string_of_uint (N.to_uint n)) key
         && (n <? 4294967295)%N
      then Some n else None
  | None => None
  end.

Fixpoint insert_index (i : N) (key : string) (v : Value) (o : JsObject)
  : JsObject :=
  match o with
  | [] => [(key, v)]
  | (k, w) :: rest =>
      match array_index k with
      | Some j => if (j <? i)%N then (k, w) :: insert_index i key v rest
                  else (key, v) :: o
      | None => (key, v) :: o
      end
  end.

Fixpoint replace_value (key : string) (v : Value) (o : JsObject) : JsObject :=
  match o with
  | [] => []
  | (k, w) :: rest =>
      if String.eqb k key then (k, v) :: rest
      else (k, w) :: replace_value key v rest
  end.

(** [o[key] = v] on an ordinary object whose prototype is
    Object.prototype: an existing property keeps its place and takes the
    value; the key [__proto__], when it is no own property, reaches the
    setter inherited from Object.prototype, which makes no property; any
    other new key is put where Object.keys will list it. *)
Definition set (o : JsObject) (key : string) (v : Value) : JsObject :=
  if has o key then replace_value key v o
  else if String.eqb key "__proto__" then o
  else match array_index key with
       | Some i => insert_index i key v o
       | None => (o ++ [(key, v)])%list
       end.

(** A thrown error object: the name of its class and its message. *)
Record JsError : Type := { err_name : string; message : string }.

(** [new Error(msg)] *)
Definition Error (msg : string) : JsError :=
  {| err_name := "Error"; message := msg |}.

(** How a call completes: normally with a value, or by throwing. *)
Inductive Completion (A : Type) : Type :=
| Normal (a : A)
| Throw (e : JsError).

Arguments Normal {A} a.
Arguments Throw {A} e.

End Js.

Import Js.

(* ================================================================== *)
(** ** CSV exporter: the pure part of the [export-to-csv] handler *)
(* ================================================================== *)

Module Csv.

(** The relabelling callback of [csvHeaders]. *)
Definition csvHeader (h : string) : string :=
  if String.eqb h "sensor_name" then "Sensor Name"
  else if String.eqb h "temperature" then "Temperature (C)"
  else if String.eqb h "timestamp" then "Time Stamp"
  else toUpperCase h.

(** The escaping branch: every double quote of [s] replaced by two, and
    the result put between double quotes. *)
Definition quoted (s : string) : string :=
  String dquote
    (replace_all dquote (String dquote (String dquote EmptyString)) s
     ++ String dquote EmptyString).

(** The inner callback of [csvRows]: the value put in one cell. *)
Definition csvCell (row : JsObject) (header : string) : Value :=
  let value := get row header in
  match value with
  | VNull | VUndefined => VString EmptyString
  | VString s => if includes "," s then VString (quoted s) else value
  | _ => value
  end.

Definition csvRow (headers : list string) (row : JsObject) : string :=
  Array_join "," (map (csvCell row) headers).

Definition headers_of (data : list JsObject) : list string :=
  match data with
  | [] => []
  | first :: _ => Object_keys first
  end.

Definition csvHeaders (data : list JsObject) : string :=
  Array_join "," (map (fun h => VString (csvHeader h)) (headers_of data)).

Definition csvRows (data : list JsObject) : list string :=
  map (csvRow (headers_of data)) data.

(** [[csvHeaders, ...csvRows].join('\n')] *)
Definition csvContent (data : list JsObject) : string :=
  Array_join newline (map VString (csvHeaders data :: csvRows data)).

End Csv.

(* ================================================================== *)
(** ** The outside world and the machine state *)
(* ================================================================== *)

Module World.

(** The content of a file (a Node Buffer). *)
Definition Buffer : Type := string.

(** One result set of [db.exec]. *)
Record QueryExecResult : Type :=
  { columns : list string; values : list (list Value) }.

(** A sql.js Database instance, given by what [exec] answers. *)
Record Database : Type :=
  { db_exec : string -> Completion (list QueryExecResult) }.

(** The initialised sql.js module, given by what [new Database(buffer)]
    does. *)
Record SqlJsModule : Type :=
  { Database_new : Buffer -> Completion Database }.

(** What the program asks of Node, Electron and sql.js. *)
Record Env : Type :=
  { NODE_ENV : option string;
    dirname : string;
    resourcesPath : string;
    path_join : list string -> string;
    path_basename : string -> string;
    fs_existsSync : string -> bool;
    fs_readFileSync : string -> Completion Buffer;
    fs_writeFileSync : string -> string -> Completion unit;
    (** how the promise returned by [initSqlJs(config)] settles *)
    initSqlJs : option Buffer -> Completion SqlJsModule;
    (** [{ canceled, filePaths }] of the open dialog *)
    showOpenDialog : bool * list string;
    (** [{ canceled, filePath }] of the save dialog *)
    showSaveDialog : bool * option string }.

(** The calls that leave the program, most recent first in a trace. *)
Inductive Event : Type :=
| EvInitSqlJs (wasmBinary : option Buffer)
| EvReadFile (path : string)
| EvDatabase (db : Database)
| EvExec (db : Database) (sql : string)
| EvClose (db : Database)
| EvWriteFile (path content : string)
| EvOpenDialog
| EvSaveDialog
| EvConsoleLog (text : string)
| EvConsoleError (text : string).

(** The module-level variable [dbModule] and the trace of events. *)
Record Machine : Type :=
  { dbModule : option SqlJsModule; trace : list Event }.

Definition is_init (e : Event) : bool :=
  match e with
  | EvInitSqlJs _ => true
  | _ => false
  end.

Definition is_database (e : Event) : bool :=
  match e with
  | EvDatabase _ => true
  | _ => false
  end.

Definition is_close (e : Event) : bool :=
  match e with
  | EvClose _ => true
  | _ => false
  end.

Definition count (p : Event -> bool) (t : list Event) : nat :=
  List.length (filter p t).

(** The number of calls of [initSqlJs] a trace holds. *)
Definition initializations (m : Machine) : nat := count is_init (trace m).

End World.

Import World.

(* ================================================================== *)
(** ** A state monad with exceptions *)
(* ================================================================== *)

Module Eff.

Definition M (S A : Type) : Type := S -> Completion A * S.

Definition ret {S A} (a : A) : M S A := fun s => (Normal a, s).

Definition bind {S A B} (m : M S A) (k : A -> M S B) : M S B :=
  fun s =>
    match m s with
    | (Normal a, s') => k a s'
    | (Throw e, s') => (Throw e, s')
    end.

Definition throw {S A} (e : JsError) : M S A := fun s => (Throw e, s).

(** A value or an exception that an oracle answered. *)
Definition settle {S A} (c : Completion A) : M S A := fun s => (c, s).

Definition gets {S A} (f : S -> A) : M S A := fun s => (Normal (f s), s).

Definition modify {S} (f : S -> S) : M S unit := fun s => (Normal tt, f s).

(** [try { body } catch (e) { handler e } finally { fin }] *)
Definition try_catch_finally {S A}
  (body : M S A) (handler : JsError -> M S A) (fin : M S unit) : M S A :=
  fun s =>
    let (c1, s1) := body s in
    let (c2, s2) := match c1 with
                    | Normal a => (Normal a, s1)
                    | Throw e => handler e s1
                    end in
    let (c3, s3) := fin s2 in
    match c3 with
    | Normal _ => (c2, s3)
    | Throw e => (Throw e, s3)
    end.

(** [try { body } catch (e) { handler e }] *)
Definition try_catch {S A} (body : M S A) (handler : JsError -> M S A)
  : M S A :=
  try_catch_finally body handler (ret tt).

Declare Scope eff_scope.
Delimit Scope eff_scope with eff.
Notation "x <- m ;; k" := (bind m (fun x => k))
  (at level 61, m at next level, right associativity) : eff_scope.
Notation "m ;; k" := (bind m (fun _ => k))
  (at level 61, right associativity) : eff_scope.

End Eff.

Import Eff.
Open Scope eff_scope.

(* ================================================================== *)
(** ** The main process *)
(* ================================================================== *)

Module Main.

Definition log (e : Event) : M Machine unit :=
  modify (fun m => {| dbModule := dbModule m; trace := e :: trace m |}).

Definition set_dbModule (module : SqlJsModule) : M Machine unit :=
  modify (fun m => {| dbModule := Some module; trace := trace m |}).

(** *** Engine loader: [initializeDbModule] *)

Definition WASM_PATH (env : Env) : string :=
  match NODE_ENV env with
  | Some mode =>
      if String.eqb mode "development"
      then path_join env [dirname env; "node_modules"; "sql.js"; "dist";
                          "sql-wasm.wasm"]
      else path_join env [resourcesPath env; "sql-wasm.wasm"]
  | None => path_join env [resourcesPath env; "sql-wasm.wasm"]
  end.

(** Where the asynchronous function stands after its synchronous part:
    it has returned, or it waits on the promise of [initSqlJs]. *)
Inductive Suspended : Type :=
| Returned
| Awaiting (wasmBinary : option Buffer).

(** The [catch (e)] clause. *)
Definition init_failed {A} (e : JsError) : M Machine A :=
  log (EvConsoleError ("Failed to initialize sql.js: " ++ message e)) ;;
  throw e.

(** From the call up to the [await]. *)
Definition initialize_begin (env : Env) : M Machine Suspended :=
  module <- gets dbModule ;;
  match module with
  | Some _ => ret Returned
  | None =>
      let path := WASM_PATH env in
      try_catch
        (if fs_existsSync env path then
           log (EvReadFile path) ;;
           wasmBinary <- settle (fs_readFileSync env path) ;;
           log (EvInitSqlJs (Some wasmBinary)) ;;
           ret (Awaiting (Some wasmBinary))
         else
           log (EvConsoleError ("WASM file not found at: " ++ path ++
                                ". Attempting default load.")) ;;
           log (EvInitSqlJs None) ;;
           ret (Awaiting None))
        init_failed
  end.

(** From the settlement of the awaited promise to the end. *)
Definition initialize_resume (settled : Completion SqlJsModule)
  : M Machine unit :=
  try_catch
    (module <- settle settled ;;
     set_dbModule module ;;
     log (EvConsoleLog "SQL.js library initialized for dashboard."))
    init_failed.

(** A call that is awaited before anything else runs. *)
Definition initializeDbModule (env : Env) : M Machine unit :=
  where_ <- initialize_begin env ;;
  match where_ with
  | Returned => ret tt
  | Awaiting wasmBinary => initialize_resume (initSqlJs env wasmBinary)
  end.

(** *** Log extractor: [readDbFileAndQuery] *)

Definition QUERY : string :=
  "SELECT sl, sensor_name, status, temperature, timestamp FROM temp_logs ORDER BY sl DESC".

(** [columns.forEach((col, index) => { entry[col] = row[index]; })] *)
Fixpoint forEach_set (cols : list string) (index : nat) (row : list Value)
  (entry : JsObject) : JsObject :=
  match cols with
  | [] => entry
  | col :: rest =>
      forEach_set rest (S index) row (set entry col (nth index row VUndefined))
  end.

(** The callback of [rows.map]. *)
Definition entry_of (cols : list string) (row : list Value) : JsObject :=
  forEach_set cols 0 row [].

(** The activation of [readDbFileAndQuery]: the machine and the local
    variable [db]. *)
Record Frame : Type := { global : Machine; db : option Database }.

Definition in_global {A} (m : M Machine A) : M Frame A :=
  fun f =>
    let (c, g) := m (global f) in (c, {| global := g; db := db f |}).

Definition assign_db (d : Database) : M Frame unit :=
  modify (fun f => {| global := global f; db := Some d |}).

Definition with_frame {A} (body : M Frame A) : M Machine A :=
  fun m =>
    let (c, f) := body {| global := m; db := None |} in (c, global f).

Definition readDbFileAndQuery (env : Env) (filePath : string)
  : M Machine (list JsObject) :=
  module <- gets dbModule ;;
  match module with
  | None => throw (Error "SQL.js library not initialized.")
  | Some module =>
      with_frame
        (try_catch_finally
           (in_global (log (EvReadFile filePath)) ;;
            filebuffer <- settle (fs_readFileSync env filePath) ;;
            d <- settle (Database_new module filebuffer) ;;
            assign_db d ;;
            in_global (log (EvDatabase d)) ;;
            in_global (log (EvConsoleLog ("Loaded DB file from: " ++ filePath))) ;;
            in_global (log (EvExec d QUERY)) ;;
            result <- settle (db_exec d QUERY) ;;
            match result with
            | [] => ret []
            | first :: _ =>
                if (List.length (values first) =? 0)%nat then ret []
                else ret (map (entry_of (columns first)) (values first))
            end)
           (fun error =>
              in_global (log (EvConsoleError "Database query failed:")) ;;
              throw (Error ("Failed to process database file: " ++
                            message error)))
           (d <- gets db ;;
            match d with
            | Some d => in_global (log (EvClose d))
            | None => ret tt
            end))
  end.

(** *** IPC handlers *)

(** The object a handler answers with; a field that the object literal
    does not have is [None]. *)
Record Envelope : Type :=
  { success : bool;
    env_message : option string;
    env_filePath : option string;
    env_fileName : option string;
    env_data : option (list JsObject) }.

Definition failure (msg : string) : Envelope :=
  {| success := false; env_message := Some msg; env_filePath := None;
     env_fileName := None; env_data := None |}.

(** [ipcMain.handle('load-database-log', ...)] *)
Definition load_database_log (env : Env) : M Machine Envelope :=
  log EvOpenDialog ;;
  let (canceled, filePaths) := showOpenDialog env in
  if canceled || (List.length filePaths =? 0)%nat then ret (failure "Canceled")
  else
    let filePath := hd EmptyString filePaths in
    try_catch
      (data <- readDbFileAndQuery env filePath ;;
       ret {| success := true; env_message := None;
              env_filePath := Some filePath;
              env_fileName := Some (path_basename env filePath);
              env_data := Some data |})
      (fun error =>
         ret {| success := false; env_message := Some (message error);
                env_filePath := Some filePath; env_fileName := None;
                env_data := None |}).

(** [!filePath] *)
Definition no_path (filePath : option string) : bool :=
  match filePath with
  | None => true
  | Some p => String.eqb p EmptyString
  end.

(** [!data || data.length === 0], for [data] an array or absent. *)
Definition no_data (data : option (list JsObject)) : bool :=
  match data with
  | None => true
  | Some records => (List.length records =? 0)%nat
  end.

(** [ipcMain.handle('export-to-csv', ...)], for [data] absent or an array
    of records; what the source does with another value (it throws a
    TypeError at a null element and at a value without [map]) lies outside
    this definition. *)
Definition export_to_csv (env : Env) (data : option (list JsObject))
  : M Machine Envelope :=
  if no_data data then ret (failure "No data provided for export.")
  else
    let csvContent := Csv.csvContent (match data with
                                      | Some records => records
                                      | None => []
                                      end) in
    log EvSaveDialog ;;
    let (canceled, filePath) := showSaveDialog env in
    if canceled || no_path filePath then ret (failure "Canceled")
    else
      let filePath := match filePath with Some p => p | None => EmptyString end in
      try_catch
        (log (EvWriteFile filePath csvContent) ;;
         settle (fs_writeFileSync env filePath csvContent) ;;
         ret {| success := true;
                env_message := Some ("Data successfully exported to CSV at: "
                                     ++ filePath);
                env_filePath := None; env_fileName := None;
                env_data := None |})
        (fun error =>
           log (EvConsoleError "CSV Write Failed:") ;;
           ret (failure ("Failed to save CSV file: " ++ message error))).

End Main.

(* ================================================================== *)
(** ** Concurrent calls of [initializeDbModule] on the event loop *)
(* ================================================================== *)

Module Loop.

Import Main.

(** A call of the asynchronous [initializeDbModule]: not yet begun, waiting
    on the promise of [initSqlJs] (given with its settlement), or done. *)
Inductive Task : Type :=
| NotStarted (env : Env)
| Waiting (settled : Completion SqlJsModule)
| Finished (c : Completion unit).

Record Config : Type := { machine : Machine; tasks : list Task }.

(** One turn of the event loop: the synchronous part of call [i], or the
    continuation of call [i] after its [await]. *)
Inductive Action : Type :=
| Begin (i : nat)
| Resume (i : nat).

Fixpoint update {A} (i : nat) (x : A) (l : list A) : list A :=
  match l, i with
  | [], _ => []
  | _ :: rest, O => x :: rest
  | y :: rest, S j => y :: update j x rest
  end.

Definition after_begin (env : Env) (c : Completion Suspended) : Task :=
  match c with
  | Normal Returned => Finished (Normal tt)
  | Normal (Awaiting wasmBinary) => Waiting (initSqlJs env wasmBinary)
  | Throw e => Finished (Throw e)
  end.

Definition turn (a : Action) (c : Config) : option Config :=
  match a with
  | Begin i =>
      match nth_error (tasks c) i with
      | Some (NotStarted env) =>
          let (r, m) := initialize_begin env (machine c) in
          Some {| machine := m;
                  tasks := update i (after_begin env r) (tasks c) |}
      | _ => None
      end
  | Resume i =>
      match nth_error (tasks c) i with
      | Some (Waiting settled) =>
          let (r, m) := initialize_resume settled (machine c) in
          Some {| machine := m; tasks := update i (Finished r) (tasks c) |}
      | _ => None
      end
  end.

Fixpoint run (schedule : list Action) (c : Config) : option Config :=
  match schedule with
  | [] => Some c
  | a :: rest =>
      match turn a c with
      | Some c' => run rest c'
      | None => None
      end
  end.

(** The process at start: [dbModule] unset, nothing logged, one call per
    environment not yet begun. *)
Definition fresh : Machine := {| dbModule := None; trace := [] |}.

Definition initial (envs : list Env) : Config :=
  {| machine := fresh; tasks := map NotStarted envs |}.

End Loop.

(* ================================================================== *)
(** ** Vocabulary of the statements *)
(* ================================================================== *)

Module Terms.

Import Main.

(** A double quote, as a text. *)
Definition q : string := String dquote EmptyString.

(** The text of one cell, in the words of the specification: nothing for
    [null] and for a missing value, the quoted form for a text with a
    comma, the value as it prints otherwise. *)
Definition field_text (v : Value) : string :=
  match v with
  | VNull | VUndefined => EmptyString
  | VString s => if includes "," s then Csv.quoted s else s
  | other => ToString other
  end.

(** The error the [catch] clause of [readDbFileAndQuery] throws for a
    caught [e]. *)
Definition wrapped (e : JsError) : JsError :=
  Error ("Failed to process database file: " ++ message e).

(** The records built from what [exec] answered. *)
Definition records_of (result : list QueryExecResult) : list JsObject :=
  match result with
  | [] => []
  | first :: _ =>
      if (List.length (values first) =? 0)%nat then []
      else map (entry_of (columns first)) (values first)
  end.

Definition caught : Event := EvConsoleError "Database query failed:".

(** The events up to and including the query, once an instance exists. *)
Definition queried (filePath : string) (d : Database) (t : list Event)
  : list Event :=
  EvExec d QUERY :: EvConsoleLog ("Loaded DB file from: " ++ filePath)
    :: EvDatabase d :: EvReadFile filePath :: t.

(** The machine with the library loaded and trace [t]. *)
Definition at_ (module : SqlJsModule) (t : list Event) : Machine :=
  {| dbModule := Some module; trace := t |}.


(** The machine with [new] logged on top of its trace. *)
Definition logged (new : list Event) (m : Machine) : Machine :=
  {| dbModule := dbModule m; trace := new ++ trace m |}.

Definition loaded (module : SqlJsModule) (new : list Event) (m : Machine)
  : Machine :=
  {| dbModule := Some module; trace := new ++ trace m |}.

Definition report (e : JsError) : Event :=
  EvConsoleError ("Failed to initialize sql.js: " ++ message e).

Definition not_found (env : Env) : Event :=
  EvConsoleError ("WASM file not found at: " ++ WASM_PATH env ++
                  ". Attempting default load.").

Definition ready : Event :=
  EvConsoleLog "SQL.js library initialized for dashboard.".

(** The configuration [initSqlJs] is called with, when the synchronous part
    of [initializeDbModule] gets that far. *)
Definition wasm_config (env : Env) : Completion (option Buffer) :=
  if fs_existsSync env (WASM_PATH env) then
    match fs_readFileSync env (WASM_PATH env) with
    | Normal wasmBinary => Normal (Some wasmBinary)
    | Throw e => Throw e
    end
  else Normal None.

(** How the initialisation of the library ends in [env]. *)
Definition init_outcome (env : Env) : Completion SqlJsModule :=
  match wasm_config env with
  | Normal config => initSqlJs env config
  | Throw e => Throw e
  end.

(** What the synchronous part logs before the call of [initSqlJs]. *)
Definition probe (env : Env) : Event :=
  if fs_existsSync env (WASM_PATH env) then EvReadFile (WASM_PATH env)
  else not_found env.

(** A call whose own initialisation will succeed. *)
Definition succeeds (env : Env) : Prop :=
  exists module, init_outcome env = Normal module.



(** A column name that is written as a new property at the end: no array
    index and not [__proto__]. *)
Definition plain_name (c : string) : Prop :=
  array_index c = None /\ c <> "__proto__".

End Terms.

Import Terms.

(* ================================================================== *)
(** ** Sample worlds *)
(* ================================================================== *)

Module Worlds.

(** The record of the specification's example. *)
Definition example_record : JsObject :=
  [ ("sl", VNumber (Finite false 1 1));
    ("sensor_name", VString "A,B");
    ("status", VString "OK");
    ("temperature", VNumber (Finite false 215 2));
    ("timestamp", VString "2024-01-01T00:00:00Z") ].

Definition example_keys : list string :=
  ["sl"; "sensor_name"; "status"; "temperature"; "timestamp"].

(** A database whose query has no result set. *)
Definition no_database : Database :=
  {| db_exec := fun _ => Normal [] |}.

Definition a_module : SqlJsModule :=
  {| Database_new := fun _ => Normal no_database |}.

(** A world without the wasm file, in which [initSqlJs] resolves and every
    file can be read. *)
Definition an_env : Env :=
  {| NODE_ENV := Some "development";
     dirname := "/app";
     resourcesPath := "/resources";
     path_join := String.concat "/";
     path_basename := fun p => p;
     fs_existsSync := fun _ => false;
     fs_readFileSync := fun _ => Normal "bytes";
     fs_writeFileSync := fun _ _ => Normal tt;
     initSqlJs := fun _ => Normal a_module;
     showOpenDialog := (false, ["logs.db"]);
     showSaveDialog := (false, Some "out.csv") |}.

(** The error Node throws for a file it may not open. *)
Definition denied (path : string) : JsError :=
  {| err_name := "Error";
     message := "EACCES: permission denied, open '" ++ path ++ "'" |}.

(** The same world, except that no file can be read. *)
Definition unreadable : Env :=
  {| NODE_ENV := NODE_ENV an_env;
     dirname := dirname an_env;
     resourcesPath := resourcesPath an_env;
     path_join := path_join an_env;
     path_basename := path_basename an_env;
     fs_existsSync := fs_existsSync an_env;
     fs_readFileSync := fun path => Throw (denied path);
     fs_writeFileSync := fs_writeFileSync an_env;
     initSqlJs := initSqlJs an_env;
     showOpenDialog := showOpenDialog an_env;
     showSaveDialog := showSaveDialog an_env |}.

(** A library that refuses every content, throwing [e]. *)
Definition refusing (e : JsError) : SqlJsModule :=
  {| Database_new := fun _ => Throw e |}.

(** A log table of two rows, as the query returns it. *)
Definition two_rows : list (list Value) :=
  [ [VNumber (Finite false 2 1); VString "B"; VString "OK";
     VNumber (Finite false 205 2); VString "2024-01-02T00:00:00Z"];
    [VNumber (Finite false 1 1); VString "A"; VString "OK";
     VNumber (Finite false 215 2); VString "2024-01-01T00:00:00Z"] ].

Definition two_rows_result : QueryExecResult :=
  {| columns := example_keys; values := two_rows |}.

Definition logs_database : Database :=
  {| db_exec := fun _ => Normal [two_rows_result] |}.

Definition logs_module : SqlJsModule :=
  {| Database_new := fun _ => Normal logs_database |}.

(** Two records, the first with an own property named like a method of
    Object.prototype, the second without it. *)
Definition shadowing_first : JsObject :=
  [ ("a", VNumber (Finite false 1 1)); ("toString", VString "own") ].

Definition shadowing_second : JsObject :=
  [ ("a", VNumber (Finite false 2 1)) ].




End Worlds.

Import Worlds.
Import Main.

(* ================================================================== *)
(** ** Measures used by the further properties *)
(* ================================================================== *)

Module Measures.

Import Main Loop.

(** The number of occurrences of a character in a text. *)
Fixpoint count_char (c : ascii) (s : string) : nat :=
  match s with
  | EmptyString => 0
  | String a rest => (if Ascii.eqb a c then 1 else 0) + count_char c rest
  end.

Definition line_feed : ascii := "010"%char.

(** The place of a new array-index key [k] among the keys of an object. *)
Fixpoint insert_key (i : N) (k : string) (keys : list string) : list string :=
  match keys with
  | [] => [k]
  | k' :: rest =>
      match array_index k' with
      | Some j => if (j <? i)%N then k' :: insert_key i k rest else k :: keys
      | None => k :: keys
      end
  end.

(** The keys of an object after [o[k] = v], from its keys before. *)
Definition keys_set (keys : list string) (k : string) : list string :=
  if existsb (String.eqb k) keys then keys
  else if String.eqb k "__proto__" then keys
  else match array_index k with
       | Some i => insert_key i k keys
       | None => (keys ++ [k])%list
       end.

Definition is_read (e : Event) : bool :=
  match e with
  | EvReadFile _ => true
  | _ => false
  end.

Definition is_exec (e : Event) : bool :=
  match e with
  | EvExec _ _ => true
  | _ => false
  end.

Definition is_write (e : Event) : bool :=
  match e with
  | EvWriteFile _ _ => true
  | _ => false
  end.

Definition is_dialog (e : Event) : bool :=
  match e with
  | EvOpenDialog | EvSaveDialog => true
  | _ => false
  end.

Definition not_started (t : Task) : bool :=
  match t with
  | NotStarted _ => true
  | _ => false
  end.

(** The calls of a configuration that have not begun. *)
Definition waiting_room (c : Config) : nat :=
  List.length (filter not_started (tasks c)).

(** The file name proposed by the save dialog, from the text of
    [new Date().toISOString()]:
    [`log_data_export_${iso.slice(0, 10).replace(/-/g, '')}.csv`]. *)
Definition defaultPath (iso : string) : string :=
  "log_data_export_" ++ replace_all "-"%char EmptyString (substring 0 10 iso)
  ++ ".csv".

End Measures.

Import Measures.

(* ================================================================== *)
(** ** The event loop with sql.js as it loads itself *)
(* ================================================================== *)

Module Library.

Import Main Loop.

(** The process with the loader of sql.js in it.  sql.js keeps the promise
    of its first call of [initSqlJs] in a variable of its own
    ([initSqlJsPromise]) and returns that promise to every later call: the
    library is instantiated when the promise is made, by the first call
    and by no other. *)
Record Process : Type :=
  { config : Config;
    initSqlJsPromise : option (Completion SqlJsModule);
    instantiations : nat }.

(** The synchronous part of call [i], begun in world [env]: as in
    [Loop.turn], except that a call of [initSqlJs] waits on the promise
    sql.js keeps, which is made (and the library instantiated) only when
    there is none yet. *)
Definition begin_call (i : nat) (env : Env) (p : Process) : Process :=
  let (r, m) := initialize_begin env (machine (config p)) in
  match r with
  | Normal (Awaiting wasmBinary) =>
      match initSqlJsPromise p with
      | Some promise =>
          {| config := {| machine := m;
                          tasks := update i (Waiting promise)
                                     (tasks (config p)) |};
             initSqlJsPromise := Some promise;
             instantiations := instantiations p |}
      | None =>
          let promise := initSqlJs env wasmBinary in
          {| config := {| machine := m;
                          tasks := update i (Waiting promise)
                                     (tasks (config p)) |};
             initSqlJsPromise := Some promise;
             instantiations := S (instantiations p) |}
      end
  | Normal Returned =>
      {| config := {| machine := m;
                      tasks := update i (Finished (Normal tt))
                                 (tasks (config p)) |};
         initSqlJsPromise := initSqlJsPromise p;
         instantiations := instantiations p |}
  | Throw e =>
      {| config := {| machine := m;
                      tasks := update i (Finished (Throw e))
                                 (tasks (config p)) |};
         initSqlJsPromise := initSqlJsPromise p;
         instantiations := instantiations p |}
  end.

(** One turn of the event loop. *)
Definition step (a : Action) (p : Process) : option Process :=
  match a with
  | Begin i =>
      match nth_error (tasks (config p)) i with
      | Some (NotStarted env) => Some (begin_call i env p)
      | _ => None
      end
  | Resume i =>
      match turn (Resume i) (config p) with
      | Some c => Some {| config := c;
                          initSqlJsPromise := initSqlJsPromise p;
                          instantiations := instantiations p |}
      | None => None
      end
  end.

Fixpoint steps (schedule : list Action) (p : Process) : option Process :=
  match schedule with
  | [] => Some p
  | a :: rest =>
      match step a p with
      | Some p' => steps rest p'
      | None => None
      end
  end.


End Library.


(* ================================================================== *)
(** ** Objects *)
(* ================================================================== *)

Module ObjectFacts.

Lemma own_replace_value_other (k h : string) (v : Value) (o : JsObject) :
  k <> h -> own (replace_value k v o) h = own o h.
Proof.
  intro Hne. induction o as [|[k' w] o IH]; simpl; [reflexivity|].
  destruct (String.eqb k' k) eqn:E; simpl.
  - apply String.eqb_eq in E. subst k'.
    apply String.eqb_neq in Hne. now rewrite Hne.
  - now rewrite IH.
Qed.

Lemma own_insert_index_other (i : N) (k h : string) (v : Value) (o : JsObject) :
  k <> h -> own (insert_index i k v o) h = own o h.
Proof.
  intro Hne. apply String.eqb_neq in Hne.
  induction o as [|[k' w] o IH]; simpl.
  - now rewrite Hne.
  - destruct (array_index k') as [j|]; [destruct (j <? i)%N|]; simpl;
      rewrite ?Hne, ?IH; reflexivity.
Qed.

Lemma own_app_other (k h : string) (v : Value) (o : JsObject) :
  k <> h -> own (o ++ [(k, v)])%list h = own o h.
Proof.
  intro Hne. apply String.eqb_neq in Hne.
  induction o as [|[k' w] o IH]; simpl.
  - now rewrite Hne.
  - now rewrite IH.
Qed.

Lemma own_set_other (o : JsObject) (k h : string) (v : Value) :
  k <> h -> own (set o k v) h = own o h.
Proof.
  intro Hne. unfold set. destruct (has o k).
  - now apply own_replace_value_other.
  - destruct (String.eqb k "__proto__"); [reflexivity|].
    destruct (array_index k).
    + now apply own_insert_index_other.
    + now apply own_app_other.
Qed.

(** Writing property [k] leaves every other property as it was. *)
Lemma get_set_other (o : JsObject) (k h : string) (v : Value) :
  k <> h -> get (set o k v) h = get o h.
Proof. intro Hne. unfold get. now rewrite own_set_other. Qed.

(** One more own property leaves the others as they read. *)
Lemma get_app_other (k h : string) (v : Value) (o : JsObject) :
  k <> h -> get (o ++ [(k, v)])%list h = get o h.
Proof. intro Hne. unfold get. now rewrite own_app_other. Qed.

Lemma has_cons (k k' : string) (w : Value) (o : JsObject) :
  has ((k', w) :: o) k = String.eqb k k' || has o k.
Proof. reflexivity. Qed.


(** A key that is no own property has no own value. *)
Lemma own_missing (o : JsObject) (k : string) :
  has o k = false -> own o k = None.
Proof.
  induction o as [|[k' w] o IH]; [reflexivity|].
  rewrite has_cons, String.eqb_sym. simpl.
  destruct (String.eqb k' k); simpl; [discriminate | exact IH].
Qed.

(** What a key that is no own property reads as. *)
Lemma get_missing (o : JsObject) (k : string) :
  has o k = false ->
  get o k = match inherited k with
            | Some v => v
            | None => VUndefined
            end.
Proof. intro H. unfold get. now rewrite (own_missing _ _ H). Qed.

(** Every inherited member is a value that is no primitive. *)
Lemma inherited_object (k : string) (v : Value) :
  inherited k = Some v -> exists text, v = VObject text.
Proof.
  unfold inherited, Object_prototype, native. cbn [own].
  repeat match goal with
         | |- context [if ?b then _ else _] => destruct b
         end;
    intro H; try discriminate; injection H as <-; eexists; reflexivity.
Qed.

(** Reading back the property just written. *)
Lemma own_set_same (o : JsObject) (k : string) (v : Value) :
  k <> "__proto__" -> own (set o k v) k = Some v.
Proof.
  intro Hk. apply String.eqb_neq in Hk.
  unfold set. destruct (has o k) eqn:Hhas.
  - clear Hk. induction o as [|[k' w] o IH]; [discriminate|].
    rewrite has_cons, String.eqb_sym in Hhas. simpl.
    destruct (String.eqb k' k) eqn:E; simpl; rewrite E; [reflexivity|].
    now apply IH.
  - rewrite Hk.
    assert (Hskip : forall o', has o' k = false ->
                               forall tail, own (o' ++ tail)%list k = own tail k).
    { induction o' as [|[k' w] o' IH]; intros H tail; [reflexivity|].
      rewrite has_cons, String.eqb_sym in H. apply orb_false_iff in H as [E H].
      simpl. rewrite E. now apply IH. }
    destruct (array_index k) as [i|].
    + clear Hk. induction o as [|[k' w] o IH]; simpl.
      * now rewrite String.eqb_refl.
      * rewrite has_cons, String.eqb_sym in Hhas.
        apply orb_false_iff in Hhas as [E H].
        destruct (array_index k') as [j|]; [destruct (j <? i)%N|]; simpl;
          rewrite ?E, ?String.eqb_refl; auto.
    + rewrite (Hskip o Hhas). simpl. now rewrite String.eqb_refl.
Qed.

Lemma get_set_same (o : JsObject) (k : string) (v : Value) :
  k <> "__proto__" -> get (set o k v) k = v.
Proof. intro Hk. unfold get. now rewrite own_set_same. Qed.

End ObjectFacts.

(* ================================================================== *)
(** ** Facts about the exporter *)
(* ================================================================== *)

Module CsvFacts.

Import Csv ObjectFacts.

Lemma join_VString (sep : string) (l : list string) :
  Array_join sep (map VString l) = String.concat sep l.
Proof.
  unfold Array_join. rewrite map_map. simpl. now rewrite map_id.
Qed.

Lemma join_element_csvCell (row : JsObject) (h : string) :
  join_element (csvCell row h) = field_text (get row h).
Proof.
  unfold csvCell. destruct (get row h) as [| | b | x | s | t]; simpl; try reflexivity.
  destruct (includes "," s); reflexivity.
Qed.

Lemma csvRow_fields (headers : list string) (row : JsObject) :
  csvRow headers row =
  String.concat "," (map (fun h => field_text (get row h)) headers).
Proof.
  unfold csvRow, Array_join. rewrite map_map. f_equal.
  apply map_ext. intro h. apply join_element_csvCell.
Qed.

Lemma prefix_char (c a : ascii) (s : string) :
  prefix (String c EmptyString) (String a s) = Ascii.eqb c a.
Proof.
  simpl. destruct (ascii_dec c a) as [->|n].
  - rewrite Ascii.eqb_refl. now destruct s.
  - symmetry. now apply Ascii.eqb_neq.
Qed.

(** [s.includes(c)] for a one-character [c] holds exactly when [c] is one
    of the characters of [s]. *)
Lemma includes_char (c : ascii) (s : string) :
  includes (String c EmptyString) s = true <-> In c (list_ascii_of_string s).
Proof.
  induction s as [|a s IH].
  - simpl. split; [discriminate | tauto].
  - cbn [includes list_ascii_of_string In]. rewrite prefix_char.
    destruct (Ascii.eqb c a) eqn:E.
    + apply Ascii.eqb_eq in E. subst. tauto.
    + apply Ascii.eqb_neq in E. rewrite IH. split; [tauto|].
      intros [H|H]; [congruence | assumption].
Qed.

(** The header line is the comma-join of the relabelled keys of the first
    record. *)
Lemma csvHeaders_labels (first : JsObject) (rest : list JsObject) :
  csvHeaders (first :: rest) =
  String.concat "," (map csvHeader (Object_keys first)).
Proof.
  unfold csvHeaders. simpl headers_of.
  rewrite <- (map_map csvHeader VString). apply join_VString.
Qed.

Lemma csvRow_ext (headers : list string) (row row' : JsObject) :
  (forall h, In h headers -> get row' h = get row h) ->
  csvRow headers row' = csvRow headers row.
Proof.
  intro H. rewrite !csvRow_fields. f_equal. apply map_ext_in.
  intros h Hin. now rewrite H.
Qed.

End CsvFacts.

(* ================================================================== *)
(** ** Facts about the extractor *)
(* ================================================================== *)

Module ExtractFacts.

Import ObjectFacts.

(** What [forEach_set] leaves under a name: the cell of its column when
    the name is a column, what was there before otherwise. *)
Lemma get_forEach_set (cols : list string) :
  forall (index : nat) (row : list Value) (entry : JsObject) (c : string),
    NoDup cols ->
    ~ In "__proto__" cols ->
    (forall j, nth_error cols j = Some c ->
       get (forEach_set cols index row entry) c = nth (index + j) row VUndefined)
    /\ (~ In c cols -> get (forEach_set cols index row entry) c = get entry c).
Proof.
  induction cols as [|col rest IH]; intros index row entry c Hnd Hproto.
  - split; [intros [|j]; discriminate | reflexivity].
  - inversion Hnd as [|? ? Hnotin Hnd']; subst. simpl forEach_set.
    assert (Hcol : col <> "__proto__") by (intros ->; apply Hproto; now left).
    assert (Hrest : ~ In "__proto__" rest) by (intro; apply Hproto; now right).
    destruct (IH (S index) row (set entry col (nth index row VUndefined)) c
                Hnd' Hrest) as [IHin IHout].
    split.
    + intros [|j] Hj; simpl in Hj.
      * injection Hj as ->. rewrite IHout by assumption.
        rewrite get_set_same by exact Hcol. f_equal. lia.
      * rewrite (IHin j Hj). f_equal. lia.
    + intro Hc. rewrite IHout by (intro; apply Hc; now right).
      apply get_set_other. intros ->. apply Hc. now left.
Qed.

(** Field [c] of the record of a row is the cell under column [c]. *)
Lemma get_entry_of (cols : list string) (row : list Value) (j : nat) (c : string) :
  NoDup cols -> ~ In "__proto__" cols -> nth_error cols j = Some c ->
  get (entry_of cols row) c = nth j row VUndefined.
Proof.
  intros Hnd Hproto Hj. unfold entry_of.
  now destruct (get_forEach_set cols 0 row [] c Hnd Hproto) as [H _];
    rewrite (H j Hj).
Qed.






(** Every path through [readDbFileAndQuery] once the library is loaded. *)
Lemma readDbFileAndQuery_run (env : Env) (filePath : string)
  (module : SqlJsModule) (t : list Event) :
  readDbFileAndQuery env filePath (at_ module t) =
  match fs_readFileSync env filePath with
  | Throw e => (Throw (wrapped e), at_ module (caught :: EvReadFile filePath :: t))
  | Normal filebuffer =>
      match Database_new module filebuffer with
      | Throw e =>
          (Throw (wrapped e), at_ module (caught :: EvReadFile filePath :: t))
      | Normal d =>
          match db_exec d QUERY with
          | Throw e =>
              (Throw (wrapped e),
               at_ module (EvClose d :: caught :: queried filePath d t))
          | Normal result =>
              (Normal (records_of result),
               at_ module (EvClose d :: queried filePath d t))
          end
      end
  end.
Proof.
  unfold readDbFileAndQuery, with_frame, try_catch_finally, bind, gets, settle,
    in_global, assign_db, log, modify, throw, ret, at_. simpl.
  destruct (fs_readFileSync env filePath) as [filebuffer|e]; simpl; [|reflexivity].
  destruct (Database_new module filebuffer) as [d|e]; simpl; [|reflexivity].
  destruct (db_exec d QUERY) as [[|first others]|e]; simpl; try reflexivity.
  destruct (List.length (values first) =? 0)%nat; reflexivity.
Qed.

Lemma readDbFileAndQuery_unready (env : Env) (filePath : string) (m : Machine) :
  dbModule m = None ->
  readDbFileAndQuery env filePath m =
  (Throw (Error "SQL.js library not initialized."), m).
Proof.
  intro H. unfold readDbFileAndQuery, bind, gets, throw. now rewrite H.
Qed.

End ExtractFacts.

(* ================================================================== *)
(** ** Facts about the engine loader *)
(* ================================================================== *)

Module InitFacts.

Lemma initialize_begin_ready (env : Env) (m : Machine) (module : SqlJsModule) :
  dbModule m = Some module -> initialize_begin env m = (Normal Returned, m).
Proof.
  intro H. unfold initialize_begin, bind, gets, ret. now rewrite H.
Qed.

Lemma initialize_begin_run (env : Env) (m : Machine) :
  dbModule m = None ->
  initialize_begin env m =
  match wasm_config env with
  | Normal config =>
      (Normal (Awaiting config), logged [EvInitSqlJs config; probe env] m)
  | Throw e => (Throw e, logged [report e; probe env] m)
  end.
Proof.
  intro H. destruct m as [module t]. simpl in H. subst module.
  unfold initialize_begin, wasm_config, probe, try_catch, try_catch_finally,
    init_failed, bind, gets, settle, log, modify, throw, ret, logged. simpl.
  destruct (fs_existsSync env (WASM_PATH env)); simpl; [|reflexivity].
  destruct (fs_readFileSync env (WASM_PATH env)); reflexivity.
Qed.

Lemma initialize_resume_run (settled : Completion SqlJsModule) (m : Machine) :
  initialize_resume settled m =
  match settled with
  | Normal module => (Normal tt, loaded module [ready] m)
  | Throw e => (Throw e, logged [report e] m)
  end.
Proof.
  unfold initialize_resume, try_catch, try_catch_finally, init_failed, bind,
    settle, set_dbModule, log, modify, throw, ret, loaded, logged.
  destruct settled; reflexivity.
Qed.

Lemma initializeDbModule_ready (env : Env) (m : Machine) (module : SqlJsModule) :
  dbModule m = Some module -> initializeDbModule env m = (Normal tt, m).
Proof.
  intro H. unfold initializeDbModule, bind.
  now rewrite (initialize_begin_ready _ _ _ H).
Qed.

Lemma initializeDbModule_run (env : Env) (m : Machine) :
  dbModule m = None ->
  initializeDbModule env m =
  match wasm_config env with
  | Normal config =>
      match initSqlJs env config with
      | Normal module =>
          (Normal tt, loaded module [ready; EvInitSqlJs config; probe env] m)
      | Throw e =>
          (Throw e, logged [report e; EvInitSqlJs config; probe env] m)
      end
  | Throw e => (Throw e, logged [report e; probe env] m)
  end.
Proof.
  intro H. unfold initializeDbModule, bind.
  rewrite (initialize_begin_run _ _ H).
  destruct (wasm_config env) as [config|e]; [|reflexivity].
  rewrite initialize_resume_run.
  destruct (initSqlJs env config); reflexivity.
Qed.

Lemma is_init_probe (env : Env) : is_init (probe env) = false.
Proof. unfold probe. now destruct (fs_existsSync env (WASM_PATH env)). Qed.

Lemma count_app (p : Event -> bool) (t t' : list Event) :
  count p (t ++ t') = count p t + count p t'.
Proof. unfold count. now rewrite filter_app, length_app. Qed.

End InitFacts.

(* ================================================================== *)
(** ** Facts about the event loop *)
(* ================================================================== *)

Module LoopFacts.

Import Loop InitFacts.

Lemma length_update {A} (i : nat) (x : A) (l : list A) :
  List.length (update i x l) = List.length l.
Proof.
  revert i. induction l as [|y l IH]; intros [|i]; simpl; auto.
Qed.

Lemma nth_error_update_same {A} (i : nat) (x y : A) (l : list A) :
  nth_error l i = Some y -> nth_error (update i x l) i = Some x.
Proof.
  revert i. induction l as [|z l IH]; intros [|i] H; simpl in *;
    try discriminate; auto.
Qed.

Lemma nth_error_update_other {A} (i j : nat) (x : A) (l : list A) :
  i <> j -> nth_error (update i x l) j = nth_error l j.
Proof.
  revert i j. induction l as [|z l IH]; intros [|i] [|j] H; simpl;
    try reflexivity; [contradiction | apply IH; congruence].
Qed.

Lemma run_app (s s' : list Action) (c : Config) :
  run (s ++ s') c =
  match run s c with
  | Some c' => run s' c'
  | None => None
  end.
Proof.
  revert c. induction s as [|a s IH]; intro c; simpl; [reflexivity|].
  destruct (turn a c); [apply IH | reflexivity].
Qed.

(** Synchronous parts that all run while [dbModule] is unset: each of them
    calls [initSqlJs]. *)
Lemma begin_phase (begins : list nat) :
  forall c : Config,
    NoDup begins ->
    dbModule (machine c) = None ->
    (forall i, In i begins ->
       exists env, nth_error (tasks c) i = Some (NotStarted env) /\ succeeds env) ->
    exists c',
      run (map Begin begins) c = Some c'
      /\ dbModule (machine c') = None
      /\ initializations (machine c') =
         initializations (machine c) + List.length begins
      /\ List.length (tasks c') = List.length (tasks c)
      /\ (forall i, In i begins ->
            exists module, nth_error (tasks c') i = Some (Waiting (Normal module)))
      /\ (forall i, ~ In i begins -> nth_error (tasks c') i = nth_error (tasks c) i).
Proof.
  induction begins as [|b begins IH]; intros c Hnd Hnone Htasks.
  - exists c. simpl. repeat split; auto; try lia; intros i [].
  - inversion Hnd as [|? ? Hnotin Hnd']; subst.
    destruct (Htasks b (or_introl eq_refl)) as (env & Hb & module & Hout).
    simpl run. unfold turn. rewrite Hb, (initialize_begin_run _ _ Hnone).
    unfold init_outcome in Hout.
    destruct (wasm_config env) as [config|e]; [|discriminate].
    set (c1 := {| machine := logged [EvInitSqlJs config; probe env] (machine c);
                  tasks := update b (after_begin env (Normal (Awaiting config)))
                             (tasks c) |}).
    destruct (IH c1 Hnd' Hnone) as (c' & Hrun & Hnone' & Hcount & Hlen & Hin & Hout').
    { intros i Hi. destruct (Htasks i (or_intror Hi)) as (env' & Hi' & Hs).
      exists env'. split; [|exact Hs]. simpl.
      rewrite nth_error_update_other; [exact Hi'|]. intros ->. contradiction. }
    exists c'. split; [exact Hrun|]. split; [exact Hnone'|].
    split; [|split; [|split]].
    + rewrite Hcount. unfold initializations, c1, logged. cbn [machine trace].
      rewrite count_app. unfold count at 1. simpl. rewrite is_init_probe.
      simpl. lia.
    + rewrite Hlen. apply length_update.
    + intros i [<-|Hi]; [|now apply Hin].
      exists module. rewrite (Hout' b Hnotin). simpl.
      rewrite (nth_error_update_same _ _ _ _ Hb). simpl. now rewrite Hout.
    + intros i Hi. rewrite Hout' by (intro; apply Hi; now right).
      simpl. apply nth_error_update_other. intros ->. apply Hi. now left.
Qed.

(** Continuations after a successful [await]: no further initialisation,
    [dbModule] gets set. *)
Lemma resume_phase (resumes : list nat) :
  forall c : Config,
    NoDup resumes ->
    (forall i, In i resumes ->
       exists module, nth_error (tasks c) i = Some (Waiting (Normal module))) ->
    exists c',
      run (map Resume resumes) c = Some c'
      /\ initializations (machine c') = initializations (machine c)
      /\ List.length (tasks c') = List.length (tasks c)
      /\ (forall i, In i resumes ->
            nth_error (tasks c') i = Some (Finished (Normal tt)))
      /\ (forall i, ~ In i resumes -> nth_error (tasks c') i = nth_error (tasks c) i)
      /\ (dbModule (machine c) <> None \/ resumes <> [] ->
          dbModule (machine c') <> None).
Proof.
  induction resumes as [|r resumes IH]; intros c Hnd Htasks.
  - exists c. simpl. split; [reflexivity|]. split; [reflexivity|].
    split; [reflexivity|]. split; [intros i []|]. split; [reflexivity|].
    intros [H|H]; congruence.
  - inversion Hnd as [|? ? Hnotin Hnd']; subst.
    destruct (Htasks r (or_introl eq_refl)) as (module & Hr).
    simpl run. unfold turn. rewrite Hr, initialize_resume_run.
    set (c1 := {| machine := loaded module [ready] (machine c);
                  tasks := update r (Finished (Normal tt)) (tasks c) |}).
    destruct (IH c1 Hnd') as (c' & Hrun & Hcount & Hlen & Hin & Hout & Hset).
    { intros i Hi. destruct (Htasks i (or_intror Hi)) as (module' & Hi').
      exists module'. simpl.
      rewrite nth_error_update_other; [exact Hi'|]. intros ->. contradiction. }
    exists c'. split; [exact Hrun|]. split; [|split; [|split; [|split]]].
    + rewrite Hcount. reflexivity.
    + rewrite Hlen. apply length_update.
    + intros i [<-|Hi]; [|now apply Hin].
      rewrite (Hout r Hnotin). simpl. now apply nth_error_update_same with (y := Waiting (Normal module)).
    + intros i Hi. rewrite Hout by (intro; apply Hi; now right).
      simpl. apply nth_error_update_other. intros ->. apply Hi. now left.
    + intros _. apply Hset. left. simpl. discriminate.
Qed.

End LoopFacts.


Import ObjectFacts CsvFacts ExtractFacts InitFacts Loop LoopFacts.

(** A call that is awaited at once is the turn of its synchronous part
    followed, when it waits, by the turn of its continuation. *)
Lemma call_is_one_or_two_turns (env : Env) (m : Machine) :
  match turn (Begin 0) {| machine := m; tasks := [NotStarted env] |} with
  | Some c1 =>
      match tasks c1 with
      | [Waiting _] => turn (Resume 0) c1
      | _ => Some c1
      end
  | None => None
  end =
  Some {| machine := snd (initializeDbModule env m);
          tasks := [Finished (fst (initializeDbModule env m))] |}.
Proof.
  unfold turn, initializeDbModule, bind. cbn [tasks machine nth_error].
  destruct (initialize_begin env m) as [[[|config]|e] m1];
    cbn [tasks machine nth_error update after_begin fst snd]; try reflexivity.
  now destruct (initialize_resume (initSqlJs env config) m1).
Qed.

(* ================================================================== *)
(** ** CSV exporter *)
(* ================================================================== *)

(** C1, as the code has it.  For a non-empty record sequence
    [first :: rest], the document is the header line and one line per
    record joined by line feeds; each line is the comma-join of one field
    per key of the first record, in that order, so every row has as many
    fields as there are header keys.  The field of a key is the text of
    what [row[key]] reads: empty for [null] and [undefined], hence for a
    key that the record lacks and that names no member of
    Object.prototype; for a lacking key that names such a member
    (toString, constructor, ...) the text of the inherited member.  A text
    with a comma is put between double quotes with every double quote
    doubled; every other value is written as it prints, so that a text with
    a double quote and no comma is written unquoted and unchanged. *)
Theorem export_rows_escaped :
  forall (first : JsObject) (rest : list JsObject),
    let data := first :: rest in
    let headers := Object_keys first in
    let fields := fun row => map (fun h => field_text (get row h)) headers in
    Csv.csvContent data =
      String.concat newline
        (Csv.csvHeaders data
           :: map (fun row => String.concat "," (fields row)) data)
    /\ (forall row, List.length (fields row) = List.length headers)
    /\ (forall row h v, own row h = Some v -> get row h = v)
    /\ (forall row h, has row h = false -> inherited h = None ->
          field_text (get row h) = EmptyString)
    /\ (forall row h v, has row h = false -> inherited h = Some v ->
          field_text (get row h) = ToString v)
    /\ field_text VNull = EmptyString
    /\ field_text VUndefined = EmptyString
    /\ (forall s, In ","%char (list_ascii_of_string s) ->
          field_text (VString s) = q ++ replace_all dquote (q ++ q) s ++ q)
    /\ (forall s, ~ In ","%char (list_ascii_of_string s) ->
          field_text (VString s) = s)
    /\ (forall b, field_text (VBool b) = ToString (VBool b))
    /\ (forall x, field_text (VNumber x) = Number_toString x)
    /\ (forall t, field_text (VObject t) = t)
    /\ field_text (VString ("He said " ++ q ++ "hi" ++ q)) =
         "He said " ++ q ++ "hi" ++ q
    /\ field_text (VString ("He said, " ++ q ++ "hi" ++ q)) =
         q ++ "He said, " ++ q ++ q ++ "hi" ++ q ++ q ++ q.
Proof.
  intros first rest data headers fields.
  split; [|split; [|split; [|split; [|split; [|repeat split]]]]].
  - unfold Csv.csvContent. rewrite join_VString. f_equal. f_equal.
    unfold Csv.csvRows. apply map_ext. intro row. apply csvRow_fields.
  - intro row. unfold fields. apply length_map.
  - intros row h v Hown. unfold get. now rewrite Hown.
  - intros row h Hmiss Hnone. now rewrite (get_missing _ _ Hmiss), Hnone.
  - intros row h v Hmiss Hin. rewrite (get_missing _ _ Hmiss), Hin.
    destruct (inherited_object _ _ Hin) as [text ->]. reflexivity.
  - intros s Hin. apply includes_char in Hin. simpl. now rewrite Hin.
  - intros s Hnot. simpl. destruct (includes "," s) eqn:E; [|reflexivity].
    apply includes_char in E. contradiction.
Qed.

(** C1, as stated, fails.  The second of these two records lacks the key
    [toString] of the first; its line does not end in an empty field but
    in the text of the method it inherits. *)
Lemma missing_value_rendered_from_prototype :
  has shadowing_second "toString" = false
  /\ Csv.csvContent [shadowing_first; shadowing_second] =
     "A,TOSTRING" ++ newline ++ "1,own" ++ newline
     ++ "2,function toString() { [native code] }".
Proof.
  split; [reflexivity|]. vm_compute. reflexivity.
Qed.

(** C2.  The header line of a non-empty record sequence is made of the keys
    of the first record, in their order, each relabelled ([sensor_name] as
    Sensor Name, [temperature] as Temperature (C), [timestamp] as Time
    Stamp, any other key in upper case) and joined by commas.  For keys
    sl, sensor_name, status, temperature, timestamp it is
    SL,Sensor Name,STATUS,Temperature (C),Time Stamp, and the example
    record of the specification gives the row 1,<q>A,B<q>,OK,21.5,2024-01-01T00:00:00Z
    where <q> is a double quote. *)
Theorem header_from_first_record :
  (forall (first : JsObject) (rest : list JsObject),
      Csv.csvHeaders (first :: rest) =
      String.concat "," (map Csv.csvHeader (Object_keys first)))
  /\ Csv.csvHeader "sensor_name" = "Sensor Name"
  /\ Csv.csvHeader "temperature" = "Temperature (C)"
  /\ Csv.csvHeader "timestamp" = "Time Stamp"
  /\ (forall h, h <> "sensor_name" -> h <> "temperature" -> h <> "timestamp" ->
        Csv.csvHeader h = toUpperCase h)
  /\ (forall (first : JsObject) (rest : list JsObject),
        Object_keys first = example_keys ->
        Csv.csvHeaders (first :: rest) =
        "SL,Sensor Name,STATUS,Temperature (C),Time Stamp")
  /\ Csv.csvRow (Object_keys example_record) example_record =
       "1," ++ q ++ "A,B" ++ q ++ ",OK,21.5,2024-01-01T00:00:00Z"
  /\ Csv.csvContent [example_record] =
       "SL,Sensor Name,STATUS,Temperature (C),Time Stamp" ++ newline ++
       "1," ++ q ++ "A,B" ++ q ++ ",OK,21.5,2024-01-01T00:00:00Z".
Proof.
  split; [exact csvHeaders_labels|].
  split; [reflexivity|]. split; [reflexivity|]. split; [reflexivity|].
  split; [|split; [|split]].
  - intros h H1 H2 H3. unfold Csv.csvHeader.
    apply String.eqb_neq in H1, H2, H3. now rewrite H1, H2, H3.
  - intros first rest Hk. rewrite csvHeaders_labels, Hk. reflexivity.
  - vm_compute. reflexivity.
  - vm_compute. reflexivity.
Qed.

(** C6.  The export handler answers the failure No data provided for
    export., without showing a dialog or writing anything, when the
    records are absent or empty; for a non-empty sequence it never gives
    that answer. *)
Theorem export_without_data_fails :
  (forall (env : Env) (m : Machine) (data : option (list JsObject)),
      data = None \/ data = Some [] ->
      export_to_csv env data m =
      (Normal (failure "No data provided for export."), m))
  /\ (forall (env : Env) (m : Machine) (first : JsObject) (rest : list JsObject),
        exists answer m',
          export_to_csv env (Some (first :: rest)) m = (Normal answer, m')
          /\ env_message answer <> Some "No data provided for export.").
Proof.
  split.
  - intros env m data [-> | ->]; reflexivity.
  - intros env m first rest. unfold export_to_csv. simpl no_data. cbv iota.
    destruct (showSaveDialog env) as [canceled filePath].
    unfold bind at 1. simpl (log _ _).
    destruct (canceled || no_path filePath).
    + eexists _, _. split; [reflexivity|]. simpl. discriminate.
    + unfold try_catch, try_catch_finally, bind, log, modify, settle, ret. simpl.
      destruct (fs_writeFileSync env _ _); simpl;
        eexists _, _; (split; [reflexivity|]); simpl; discriminate.
Qed.

(** C10, as the code has it.  Every row of a non-empty record sequence is
    rendered with the key list of the first record only: its line is the
    comma-join of the texts of what the record reads under those keys, in
    that order, as many fields as the header line has.  A key that the
    first record lacks never shows (one more own property leaves the line
    unchanged, and a line depends on nothing but what the record reads
    under the first record's keys).  A first-record key that a record
    lacks gives an empty field, unless it names a member of
    Object.prototype, whose text is then written. *)
Theorem rows_follow_first_record_keys :
  forall (first : JsObject) (rest : list JsObject),
    let headers := Object_keys first in
    let fields := fun row => map (fun h => field_text (get row h)) headers in
    Csv.csvRows (first :: rest) =
      map (fun row => String.concat "," (fields row)) (first :: rest)
    /\ Csv.csvHeaders (first :: rest) =
       String.concat "," (map Csv.csvHeader headers)
    /\ forall row : JsObject,
        List.length (fields row) = List.length (map Csv.csvHeader headers)
        /\ (forall i h, nth_error headers i = Some h ->
              has row h = false -> inherited h = None ->
              nth_error (fields row) i = Some EmptyString)
        /\ (forall i h v, nth_error headers i = Some h ->
              has row h = false -> inherited h = Some v ->
              nth_error (fields row) i = Some (ToString v))
        /\ (forall k v, ~ In k headers ->
              Csv.csvRow headers (row ++ [(k, v)])%list = Csv.csvRow headers row)
        /\ (forall row', (forall h, In h headers -> get row' h = get row h) ->
              Csv.csvRow headers row' = Csv.csvRow headers row).
Proof.
  intros first rest headers fields. split; [|split].
  - unfold Csv.csvRows. apply map_ext. intro row. apply csvRow_fields.
  - apply csvHeaders_labels.
  - intro row. split; [unfold fields; now rewrite !length_map|].
    split; [|split; [|split]].
    + intros i h Hi Hmiss Hnone. unfold fields. rewrite nth_error_map, Hi.
      simpl. now rewrite (get_missing _ _ Hmiss), Hnone.
    + intros i h v Hi Hmiss Hin. unfold fields. rewrite nth_error_map, Hi.
      simpl. rewrite (get_missing _ _ Hmiss), Hin.
      destruct (inherited_object _ _ Hin) as [text ->]. reflexivity.
    + intros k v Hk. apply csvRow_ext. intros h Hin.
      apply get_app_other. intros ->. contradiction.
    + apply csvRow_ext.
Qed.

(** C10, as stated, fails.  The first of these two records has the own
    key [toString]; the second lacks it, and its line holds under that key
    the text of the inherited method, not an empty field. *)
Lemma missing_first_record_key_not_empty :
  Object_keys shadowing_first = ["a"; "toString"]
  /\ has shadowing_second "toString" = false
  /\ Csv.csvRows [shadowing_first; shadowing_second] =
     ["1,own"; "2,function toString() { [native code] }"].
Proof.
  split; [reflexivity|]. split; [reflexivity|]. vm_compute. reflexivity.
Qed.

(* ================================================================== *)
(** ** Log extractor *)
(* ================================================================== *)




(** C4, as the code has it.  A file that cannot be read, a content that
    cannot be opened as a database and a query that fails all end in the
    same kind of error, thrown by the one [catch] clause: an Error whose
    message is Failed to process database file: followed by the message of
    the original error.  There is no error kind of its own for a file that
    cannot be read.  The [load-database-log] handler puts the path beside
    the message in its answer. *)
Theorem every_failure_wrapped_alike :
  forall (env : Env) (filePath : string) (module : SqlJsModule)
         (t : list Event),
    (forall e,
        fs_readFileSync env filePath = Throw e ->
        readDbFileAndQuery env filePath (at_ module t) =
        (Throw (wrapped e), at_ module (caught :: EvReadFile filePath :: t)))
    /\ (forall filebuffer e,
          fs_readFileSync env filePath = Normal filebuffer ->
          Database_new module filebuffer = Throw e ->
          readDbFileAndQuery env filePath (at_ module t) =
          (Throw (wrapped e), at_ module (caught :: EvReadFile filePath :: t)))
    /\ (forall filebuffer d e,
          fs_readFileSync env filePath = Normal filebuffer ->
          Database_new module filebuffer = Normal d ->
          db_exec d QUERY = Throw e ->
          readDbFileAndQuery env filePath (at_ module t) =
          (Throw (wrapped e),
           at_ module (EvClose d :: caught :: queried filePath d t)))
    /\ (forall e,
          wrapped e =
          {| err_name := "Error";
             message := "Failed to process database file: " ++ message e |})
    /\ (forall others e,
          showOpenDialog env = (false, filePath :: others) ->
          fs_readFileSync env filePath = Throw e ->
          load_database_log env (at_ module t) =
          (Normal {| success := false;
                     env_message := Some ("Failed to process database file: "
                                          ++ message e);
                     env_filePath := Some filePath;
                     env_fileName := None;
                     env_data := None |},
           at_ module (caught :: EvReadFile filePath :: EvOpenDialog :: t))).
Proof.
  intros env filePath module t.
  split; [|split; [|split; [|split]]].
  - intros e Hread. now rewrite readDbFileAndQuery_run, Hread.
  - intros filebuffer e Hread Hopen.
    now rewrite readDbFileAndQuery_run, Hread, Hopen.
  - intros filebuffer d e Hread Hopen Hexec.
    now rewrite readDbFileAndQuery_run, Hread, Hopen, Hexec.
  - reflexivity.
  - intros others e Hdialog Hread.
    unfold load_database_log. rewrite Hdialog.
    unfold bind at 1. unfold log at 1, modify. cbn [orb hd].
    change {| dbModule := dbModule (at_ module t);
              trace := EvOpenDialog :: trace (at_ module t) |}
      with (at_ module (EvOpenDialog :: t)).
    change (List.length (filePath :: others) =? 0)%nat with false.
    unfold try_catch, try_catch_finally, bind. cbv beta iota.
    rewrite readDbFileAndQuery_run, Hread. reflexivity.
Qed.

(** C4, as stated, fails.  An unreadable file and a content that is no
    database are answered with errors of one class and one wording, which
    differ in nothing but the original message they quote; when the two
    original errors are the same, so are the two thrown values. *)
Lemma read_failure_not_a_kind_of_its_own :
  fst (readDbFileAndQuery unreadable "logs.db" (at_ a_module [])) =
    Throw (Error ("Failed to process database file: "
                  ++ "EACCES: permission denied, open 'logs.db'"))
  /\ fst (readDbFileAndQuery an_env "logs.db"
            (at_ (refusing (Error "file is not a database")) [])) =
       Throw (Error ("Failed to process database file: "
                     ++ "file is not a database"))
  /\ fst (readDbFileAndQuery unreadable "logs.db" (at_ a_module [])) =
     fst (readDbFileAndQuery an_env "logs.db"
            (at_ (refusing (denied "logs.db")) [])).
Proof.
  split; [reflexivity|]. split; reflexivity.
Qed.

(** C5.  When the file is read and opened and the query reports no result
    set, or a first result set without rows, [readDbFileAndQuery] returns
    the empty sequence normally (and closes the instance): it throws
    nothing. *)
Theorem extract_empty_is_not_an_error :
  forall (env : Env) (filePath : string) (module : SqlJsModule)
         (t : list Event) (filebuffer : Buffer) (d : Database)
         (result : list QueryExecResult),
    fs_readFileSync env filePath = Normal filebuffer ->
    Database_new module filebuffer = Normal d ->
    db_exec d QUERY = Normal result ->
    (result = [] \/
     exists first others, result = first :: others /\ values first = []) ->
    readDbFileAndQuery env filePath (at_ module t) =
    (Normal [], at_ module (EvClose d :: queried filePath d t)).
Proof.
  intros env filePath module t filebuffer d result Hread Hopen Hexec Hempty.
  rewrite readDbFileAndQuery_run, Hread, Hopen, Hexec.
  destruct Hempty as [-> | (first & others & -> & Hnone)]; [reflexivity|].
  simpl. now rewrite Hnone.
Qed.

(** A database whose query has no result set gives the empty sequence. *)
Lemma extract_empty_is_not_an_error_witness :
  fst (readDbFileAndQuery an_env "logs.db" (at_ a_module [])) = Normal [].
Proof.
  rewrite (extract_empty_is_not_an_error an_env "logs.db" a_module []
             "bytes" no_database []).
  - reflexivity.
  - reflexivity.
  - reflexivity.
  - reflexivity.
  - left. reflexivity.
Defined.

(** C7.  Whatever the world answers, a call of [readDbFileAndQuery] leaves
    [dbModule] alone and logs at most one constructed instance and as many
    closings as constructions; when an instance was constructed, closing
    that instance is the last thing logged, after its construction and
    with no other closing before: on the normal paths and on the throwing
    ones. *)
Theorem database_closed_exactly_once :
  forall (env : Env) (filePath : string) (m : Machine),
    exists completion new,
      readDbFileAndQuery env filePath m =
        (completion, {| dbModule := dbModule m; trace := new ++ trace m |})
      /\ count is_database new <= 1
      /\ count is_close new = count is_database new
      /\ (forall d, In (EvDatabase d) new ->
            exists earlier,
              new = EvClose d :: earlier
              /\ In (EvDatabase d) earlier
              /\ count is_close earlier = 0).
Proof.
  intros env filePath [[module|] t].
  - change {| dbModule := Some module; trace := t |} with (at_ module t).
    rewrite readDbFileAndQuery_run.
    destruct (fs_readFileSync env filePath) as [filebuffer|e].
    2: { exists (Throw (wrapped e)), [caught; EvReadFile filePath].
         repeat split; simpl; auto.
         intros d [H|[H|[]]]; discriminate. }
    destruct (Database_new module filebuffer) as [d|e].
    2: { exists (Throw (wrapped e)), [caught; EvReadFile filePath].
         repeat split; simpl; auto.
         intros d [H|[H|[]]]; discriminate. }
    destruct (db_exec d QUERY) as [result|e].
    + exists (Normal (records_of result)), (EvClose d :: queried filePath d []).
      repeat split; simpl; auto.
      intros d' [H|[H|[H|[H|[H|[]]]]]]; try discriminate.
      injection H as <-. eexists. repeat split. simpl. auto.
    + exists (Throw (wrapped e)), (EvClose d :: caught :: queried filePath d []).
      repeat split; simpl; auto.
      intros d' [H|[H|[H|[H|[H|[H|[]]]]]]]; try discriminate.
      injection H as <-. eexists. repeat split. simpl. auto.
  - exists (Throw (Error "SQL.js library not initialized.")), [].
    repeat split; simpl; auto. intros d [].
Qed.

(* ================================================================== *)
(** ** Engine loader *)
(* ================================================================== *)

(** C8.  Once [dbModule] is set, a call of [initializeDbModule] returns
    normally and changes nothing: no file is probed and [initSqlJs] is not
    called.  While it is unset, a call whose initialisation succeeds sets
    it with exactly one call of [initSqlJs], and every later call is of the
    first kind.  A call whose initialisation throws [e] throws that [e] to
    its caller and leaves [dbModule] unset, so that a later call initialises
    for real again, and sets it when that succeeds. *)
Theorem initialize_once_retry_after_failure :
  (forall (env : Env) (m : Machine) (module : SqlJsModule),
      dbModule m = Some module ->
      initializeDbModule env m = (Normal tt, m))
  /\ (forall (env : Env) (m : Machine) (module : SqlJsModule),
        dbModule m = None ->
        init_outcome env = Normal module ->
        exists m',
          initializeDbModule env m = (Normal tt, m')
          /\ dbModule m' = Some module
          /\ initializations m' = S (initializations m)
          /\ forall later, initializeDbModule later m' = (Normal tt, m'))
  /\ (forall (env : Env) (m : Machine) (e : JsError),
        dbModule m = None ->
        init_outcome env = Throw e ->
        exists m',
          initializeDbModule env m = (Throw e, m')
          /\ dbModule m' = None
          /\ forall (again : Env) (module : SqlJsModule),
              init_outcome again = Normal module ->
              exists m'',
                initializeDbModule again m' = (Normal tt, m'')
                /\ dbModule m'' = Some module
                /\ initializations m'' = S (initializations m')).
Proof.
  assert (Hgood : forall env m module,
             dbModule m = None -> init_outcome env = Normal module ->
             exists m',
               initializeDbModule env m = (Normal tt, m')
               /\ dbModule m' = Some module
               /\ initializations m' = S (initializations m)).
  { intros env m module Hnone Hout. unfold init_outcome in Hout.
    rewrite (initializeDbModule_run _ _ Hnone).
    destruct (wasm_config env) as [config|e]; [|discriminate].
    rewrite Hout. eexists. split; [reflexivity|]. split; [reflexivity|].
    unfold initializations, loaded. cbn [trace].
    rewrite count_app. unfold count at 1. simpl. now rewrite is_init_probe. }
  split; [exact initializeDbModule_ready|]. split.
  - intros env m module Hnone Hout.
    destruct (Hgood env m module Hnone Hout) as (m' & Hrun & Hset & Hcount).
    exists m'. repeat split; try assumption.
    intro later. now apply (initializeDbModule_ready later m' module).
  - intros env m e Hnone Hout. unfold init_outcome in Hout.
    rewrite (initializeDbModule_run _ _ Hnone).
    destruct (wasm_config env) as [config|e'].
    + rewrite Hout. eexists. split; [reflexivity|]. split; [exact Hnone|].
      intros again module Hagain. now apply Hgood.
    + injection Hout as ->. eexists. split; [reflexivity|].
      split; [exact Hnone|]. intros again module Hagain. now apply Hgood.
Qed.

(** Two calls that both begin before either continuation runs both find
    [dbModule] unset and both call [initSqlJs]. *)
Lemma two_concurrent_callers_call_twice :
  exists c,
    run [Begin 0; Begin 1; Resume 0; Resume 1] (initial [an_env; an_env]) = Some c
    /\ tasks c = [Finished (Normal tt); Finished (Normal tt)]
    /\ initializations (machine c) = 2.
Proof.
  eexists. split; [reflexivity|]. split; reflexivity.
Qed.

(** When any number of calls, each of which can initialise with success,
    all begin (in any order) before any continuation runs, and the
    continuations then run (in any order), every call makes its own call of
    [initSqlJs]: there are as many calls of [initSqlJs] as callers, every
    caller returns normally, and [dbModule] is set. *)
Lemma concurrent_callers_each_call :
  forall (envs : list Env) (begins resumes : list nat),
    Forall succeeds envs ->
    Permutation begins (seq 0 (List.length envs)) ->
    Permutation resumes (seq 0 (List.length envs)) ->
    exists c,
      run (map Begin begins ++ map Resume resumes) (initial envs) = Some c
      /\ initializations (machine c) = List.length envs
      /\ tasks c = map (fun _ => Finished (Normal tt)) envs
      /\ (envs <> [] -> dbModule (machine c) <> None).
Proof.
  intros envs begins resumes Hgood Hb Hr.
  assert (Hmem : forall l, Permutation l (seq 0 (List.length envs)) ->
                 NoDup l /\ forall i, In i l <-> i < List.length envs).
  { intros l Hl. split.
    - apply (Permutation_NoDup (Permutation_sym Hl)), seq_NoDup.
    - intro i. split; intro H.
      + apply (Permutation_in _ Hl), in_seq in H. lia.
      + apply (Permutation_in _ (Permutation_sym Hl)), in_seq. lia. }
  destruct (Hmem _ Hb) as [Hndb Hinb]. destruct (Hmem _ Hr) as [Hndr Hinr].
  destruct (begin_phase begins (initial envs) Hndb eq_refl)
    as (c1 & Hrun1 & Hnone & Hcount1 & Hlen1 & Hwait & _).
  { intros i Hi. apply Hinb in Hi. simpl.
    destruct (nth_error envs i) as [env|] eqn:E.
    - exists env. split; [now rewrite nth_error_map, E|].
      rewrite Forall_forall in Hgood. eapply Hgood, nth_error_In, E.
    - apply nth_error_None in E. lia. }
  destruct (resume_phase resumes c1 Hndr)
    as (c2 & Hrun2 & Hcount2 & Hlen2 & Hdone & _ & Hset).
  { intros i Hi. apply Hwait, Hinb, Hinr, Hi. }
  exists c2. rewrite run_app, Hrun1. split; [exact Hrun2|].
  split; [|split].
  - rewrite Hcount2, Hcount1, (Permutation_length Hb), length_seq. reflexivity.
  - apply nth_error_ext. intro i. rewrite nth_error_map.
    destruct (Nat.lt_ge_cases i (List.length envs)) as [Hlt|Hge].
    + rewrite (Hdone i (proj2 (Hinr i) Hlt)).
      destruct (nth_error envs i) eqn:E; [reflexivity|].
      apply nth_error_None in E. lia.
    + rewrite (proj2 (nth_error_None envs i) Hge). simpl.
      apply nth_error_None. rewrite Hlen2, Hlen1. simpl.
      now rewrite length_map.
  - intro Hne. apply Hset. right. intros ->.
    apply Permutation_nil in Hr.
    destruct envs; [congruence | discriminate].
Qed.

Module LibraryFacts.

Lemma steps_app (s s' : list Action) (p : Library.Process) :
  Library.steps (s ++ s') p =
  match Library.steps s p with
  | Some p' => Library.steps s' p'
  | None => None
  end.
Proof.
  revert p. induction s as [|a s IH]; intro p; simpl; [reflexivity|].
  destruct (Library.step a p); [apply IH | reflexivity].
Qed.




End LibraryFacts.

Import LibraryFacts.



(* ================================================================== *)
(** ** Further properties *)
(* ================================================================== *)

Module TextFacts.

Lemma count_char_app (c : ascii) (s s' : string) :
  count_char c (s ++ s') = count_char c s + count_char c s'.
Proof.
  induction s as [|a s IH]; simpl; [reflexivity|]. rewrite IH. lia.
Qed.

(** Occurrences of [c] in a join: those of the pieces, and those of the
    separator between any two neighbours. *)
Lemma count_char_concat (c : ascii) (sep : string) (l : list string) :
  count_char c (String.concat sep l) =
  list_sum (map (count_char c) l)
  + Nat.pred (List.length l) * count_char c sep.
Proof.
  induction l as [|x l IH]; [reflexivity|].
  destruct l as [|y l].
  - simpl. lia.
  - change (String.concat sep (x :: y :: l))
      with (x ++ sep ++ String.concat sep (y :: l)).
    rewrite !count_char_app, IH. simpl. lia.
Qed.

Lemma list_sum_zero {A} (f : A -> nat) (l : list A) :
  (forall x, In x l -> f x = 0) -> list_sum (map f l) = 0.
Proof.
  induction l as [|x l IH]; intro H; simpl; [reflexivity|].
  rewrite (H x (or_introl eq_refl)), IH; [reflexivity|].
  intros y Hy. apply H. now right.
Qed.

Lemma length_append (s s' : string) :
  String.length (s ++ s') = String.length s + String.length s'.
Proof. induction s as [|a s IH]; simpl; [reflexivity | now rewrite IH]. Qed.

Lemma append_inv_tail (s s' t : string) : s ++ t = s' ++ t -> s = s'.
Proof.
  revert s'. induction s as [|a s IH]; intros [|b s'] H; simpl in H.
  - reflexivity.
  - apply (f_equal String.length) in H. simpl in H.
    rewrite length_append in H. lia.
  - apply (f_equal String.length) in H. simpl in H.
    rewrite length_append in H. lia.
  - injection H as -> H. f_equal. now apply IH.
Qed.

(** Doubling the double quotes loses nothing. *)
Lemma doubling_injective (s s' : string) :
  replace_all dquote (String dquote (String dquote EmptyString)) s = replace_all dquote (String dquote (String dquote EmptyString)) s' -> s = s'.
Proof.
  revert s'. induction s as [|a s IH]; intros [|b s'] H; simpl in H.
  - reflexivity.
  - destruct (Ascii.eqb b dquote); discriminate.
  - destruct (Ascii.eqb a dquote); discriminate.
  - destruct (Ascii.eqb a dquote) eqn:Ea, (Ascii.eqb b dquote) eqn:Eb;
      simpl in H.
    + apply Ascii.eqb_eq in Ea, Eb. subst. injection H as H.
      f_equal. now apply IH.
    + injection H as <- H. now rewrite Ascii.eqb_refl in Eb.
    + injection H as -> H. now rewrite Ascii.eqb_refl in Ea.
    + injection H as -> H. f_equal. now apply IH.
Qed.

Lemma count_doubled (s : string) :
  count_char dquote
    (replace_all dquote (String dquote (String dquote EmptyString)) s) =
  2 * count_char dquote s.
Proof.
  induction s as [|a s IH]; cbn [replace_all count_char]; [reflexivity|].
  destruct (Ascii.eqb a dquote) eqn:E.
  - cbn [append count_char]. rewrite Ascii.eqb_refl, IH. lia.
  - cbn [count_char]. rewrite E, IH. lia.
Qed.

Lemma upper_char_comma (a : ascii) :
  Ascii.eqb (upper_char a) ","%char = Ascii.eqb a ","%char.
Proof. destruct a as [[] [] [] [] [] [] [] []]; reflexivity. Qed.

Lemma upper_char_line_feed (a : ascii) :
  Ascii.eqb (upper_char a) line_feed = Ascii.eqb a line_feed.
Proof. destruct a as [[] [] [] [] [] [] [] []]; reflexivity. Qed.

Lemma count_char_toUpperCase (c : ascii) (s : string) :
  (forall a, Ascii.eqb (upper_char a) c = Ascii.eqb a c) ->
  count_char c (toUpperCase s) = count_char c s.
Proof.
  intro H. induction s as [|a s IH]; simpl; [reflexivity|].
  now rewrite H, IH.
Qed.

Lemma count_char_In (c : ascii) (s : string) :
  In c (list_ascii_of_string s) <-> 0 < count_char c s.
Proof.
  induction s as [|a s IH]; simpl; [split; [tauto | lia]|].
  destruct (Ascii.eqb a c) eqn:E.
  - apply Ascii.eqb_eq in E. split; [lia | now left].
  - apply Ascii.eqb_neq in E. rewrite IH. simpl. split; [|tauto].
    intros [H|H]; [contradiction | exact H].
Qed.

(** Doubling the double quotes leaves the other characters as they are. *)
Lemma count_doubled_other (c : ascii) (s : string) :
  c <> dquote ->
  count_char c
    (replace_all dquote (String dquote (String dquote EmptyString)) s) =
  count_char c s.
Proof.
  intro Hc. assert (Hq : Ascii.eqb dquote c = false)
    by (apply Ascii.eqb_neq; congruence).
  induction s as [|a s IH]; cbn [replace_all count_char]; [reflexivity|].
  destruct (Ascii.eqb a dquote) eqn:E.
  - apply Ascii.eqb_eq in E. subst a.
    cbn [append count_char]. rewrite Hq, IH. reflexivity.
  - cbn [count_char]. rewrite IH. reflexivity.
Qed.

Lemma count_quoted_other (c : ascii) (s : string) :
  c <> dquote -> count_char c (Csv.quoted s) = count_char c s.
Proof.
  intro Hc. assert (Hq : Ascii.eqb dquote c = false)
    by (apply Ascii.eqb_neq; congruence).
  unfold Csv.quoted. cbn [count_char].
  rewrite count_char_app, count_doubled_other by exact Hc.
  cbn [count_char]. rewrite Hq. lia.
Qed.

Lemma list_sum_member {A} (f : A -> nat) (l : list A) (x : A) :
  In x l -> f x <= list_sum (map f l).
Proof.
  induction l as [|y l IH]; intro H; [destruct H|].
  destruct H as [->|H]; simpl; [lia|]. specialize (IH H). lia.
Qed.

End TextFacts.

Import TextFacts.

(** X1.  The escaping of a cell loses nothing: two texts with the same
    quoted form are equal.  The quoted form starts and ends with a double
    quote and holds twice the double quotes of the text, and two more. *)
Theorem quoting_loses_nothing :
  (forall s s', Csv.quoted s = Csv.quoted s' -> s = s')
  /\ (forall s, count_char dquote (Csv.quoted s) = 2 + 2 * count_char dquote s)
  /\ (forall s, exists body, Csv.quoted s = q ++ body ++ q).
Proof.
  split; [|split].
  - intros s s' H. unfold Csv.quoted in H. injection H as H.
    apply append_inv_tail in H. now apply doubling_injective.
  - intro s. unfold Csv.quoted. cbn [count_char].
    rewrite count_char_app, count_doubled. cbn [count_char].
    rewrite Ascii.eqb_refl. lia.
  - intro s. eexists. reflexivity.
Qed.

(** X2.  A row line holds one comma between any two neighbouring fields
    and the commas of the fields themselves.  When no field holds a comma
    the line has one comma less than there are header keys; a text cell
    with a comma, although quoted, makes the line hold more. *)
Theorem commas_of_a_row :
  forall (headers : list string) (row : JsObject),
    count_char ","%char (Csv.csvRow headers row) =
      Nat.pred (List.length headers)
      + list_sum (map (fun h => count_char ","%char (field_text (get row h)))
                      headers)
    /\ ((forall h, In h headers ->
           count_char ","%char (field_text (get row h)) = 0) ->
        count_char ","%char (Csv.csvRow headers row) =
        Nat.pred (List.length headers))
    /\ (forall h s, In h headers -> get row h = VString s ->
          In ","%char (list_ascii_of_string s) ->
          Nat.pred (List.length headers) <
          count_char ","%char (Csv.csvRow headers row)).
Proof.
  intros headers row.
  assert (Hcount : count_char ","%char (Csv.csvRow headers row) =
      Nat.pred (List.length headers)
      + list_sum (map (fun h => count_char ","%char (field_text (get row h)))
                      headers)).
  { rewrite csvRow_fields, count_char_concat, map_map, length_map. simpl. lia. }
  split; [exact Hcount|]. split.
  - intro H. rewrite Hcount, list_sum_zero by exact H. lia.
  - intros h s Hin Hget Hcomma. rewrite Hcount.
    pose proof (list_sum_member
                  (fun h => count_char ","%char (field_text (get row h)))
                  headers h Hin) as Hle.
    cbv beta in Hle. rewrite Hget in Hle. simpl in Hle.
    rewrite (proj2 (includes_char _ _) Hcomma) in Hle.
    rewrite count_quoted_other in Hle by discriminate.
    apply count_char_In in Hcomma. lia.
Qed.

Module HeaderFacts.

Lemma count_char_csvHeader (c : ascii) (h : string) :
  (forall a, Ascii.eqb (upper_char a) c = Ascii.eqb a c) ->
  c = ","%char \/ c = line_feed ->
  count_char c (Csv.csvHeader h) = count_char c h.
Proof.
  intros Hup Hc. unfold Csv.csvHeader.
  destruct (String.eqb_spec h "sensor_name") as [->|_];
    [destruct Hc as [->| ->]; reflexivity|].
  destruct (String.eqb_spec h "temperature") as [->|_];
    [destruct Hc as [->| ->]; reflexivity|].
  destruct (String.eqb_spec h "timestamp") as [->|_];
    [destruct Hc as [->| ->]; reflexivity|].
  now apply count_char_toUpperCase.
Qed.

End HeaderFacts.

Import HeaderFacts.

(** X3.  The document holds one line feed per record (each ends the line
    before it) and the line feeds of the keys and of the fields, which are
    written as they are.  When no key and no field holds a line feed, the
    document has exactly as many line feeds as records. *)
Theorem line_feeds_of_the_document :
  forall (first : JsObject) (rest : list JsObject),
    let data := first :: rest in
    let headers := Object_keys first in
    count_char line_feed (Csv.csvContent data) =
      List.length data
      + list_sum (map (count_char line_feed) headers)
      + list_sum (map (fun row =>
                         list_sum (map (fun h => count_char line_feed
                                                   (field_text (get row h)))
                                       headers)) data)
    /\ ((forall h, In h headers -> count_char line_feed h = 0) ->
        (forall row h, In row data -> In h headers ->
           count_char line_feed (field_text (get row h)) = 0) ->
        count_char line_feed (Csv.csvContent data) = List.length data).
Proof.
  intros first rest data headers.
  assert (Hrow : forall row,
             count_char line_feed (Csv.csvRow headers row) =
             list_sum (map (fun h => count_char line_feed
                                       (field_text (get row h))) headers)).
  { intro row. rewrite csvRow_fields, count_char_concat, map_map. simpl. lia. }
  assert (Hhead : count_char line_feed (Csv.csvHeaders data) =
                  list_sum (map (count_char line_feed) headers)).
  { unfold data. rewrite csvHeaders_labels, count_char_concat, map_map.
    fold headers. simpl (count_char line_feed ","). rewrite Nat.mul_0_r, Nat.add_0_r.
    f_equal. apply map_ext. intro h.
    apply count_char_csvHeader; [exact upper_char_line_feed | now right]. }
  assert (Hall : count_char line_feed (Csv.csvContent data) =
      List.length data
      + list_sum (map (count_char line_feed) headers)
      + list_sum (map (fun row =>
                         list_sum (map (fun h => count_char line_feed
                                                   (field_text (get row h)))
                                       headers)) data)).
  { unfold Csv.csvContent. rewrite join_VString, count_char_concat.
    cbn [map list_sum List.length Nat.pred]. rewrite Hhead.
    unfold Csv.csvRows. rewrite map_map, length_map.
    change (Csv.headers_of data) with headers.
    rewrite (map_ext _ _ Hrow).
    change (count_char line_feed newline) with 1. unfold data. simpl. lia. }
  split; [exact Hall|].
  intros Hkeys Hfields. rewrite Hall.
  rewrite (list_sum_zero _ headers Hkeys).
  rewrite (list_sum_zero _ data); [lia|].
  intros row Hrowin. apply list_sum_zero. intros h Hh. now apply Hfields.
Qed.

(** X4.  Header labels are not escaped: a label holds as many commas as
    its key, so the header line has one comma less than keys plus the
    commas of the keys, and a key with a comma makes it hold more. *)
Theorem header_labels_not_escaped :
  (forall h, count_char ","%char (Csv.csvHeader h) = count_char ","%char h)
  /\ (forall (first : JsObject) (rest : list JsObject),
        count_char ","%char (Csv.csvHeaders (first :: rest)) =
        Nat.pred (List.length (Object_keys first))
        + list_sum (map (count_char ","%char) (Object_keys first)))
  /\ (forall (first : JsObject) (rest : list JsObject) (h : string),
        In h (Object_keys first) ->
        In ","%char (list_ascii_of_string h) ->
        Nat.pred (List.length (Object_keys first)) <
        count_char ","%char (Csv.csvHeaders (first :: rest))).
Proof.
  assert (Hlabel : forall h,
             count_char ","%char (Csv.csvHeader h) = count_char ","%char h).
  { intro h. apply count_char_csvHeader; [exact upper_char_comma | now left]. }
  assert (Hline : forall first rest,
             count_char ","%char (Csv.csvHeaders (first :: rest)) =
             Nat.pred (List.length (Object_keys first))
             + list_sum (map (count_char ","%char) (Object_keys first))).
  { intros first rest. rewrite csvHeaders_labels, count_char_concat, map_map.
    rewrite length_map, (map_ext _ _ Hlabel). simpl. lia. }
  split; [exact Hlabel|]. split; [exact Hline|].
  intros first rest h Hin Hcomma. rewrite Hline.
  pose proof (list_sum_member (count_char ","%char) _ h Hin).
  apply count_char_In in Hcomma. lia.
Qed.

(** X5.  When the first record has no key, the document is nothing but
    line feeds, one per record, whatever the other records hold. *)
Theorem first_record_without_keys :
  forall (rest : list JsObject),
    Csv.csvContent ([] :: rest) =
    string_of_list_ascii (repeat line_feed (List.length ([] :: rest))).
Proof.
  intro rest. unfold Csv.csvContent. rewrite join_VString.
  unfold Csv.csvHeaders, Csv.csvRows. simpl Csv.headers_of.
  change (Array_join "," (map (fun h => VString (Csv.csvHeader h)) []))
    with EmptyString.
  change (map (Csv.csvRow []) ([] :: rest))
    with (EmptyString :: map (fun _ : JsObject => EmptyString) rest).
  induction rest as [|r rest IH]; [reflexivity|].
  cbn [map List.length repeat string_of_list_ascii] in *.
  change (String.concat newline
            (EmptyString :: EmptyString :: EmptyString
               :: map (fun _ : JsObject => EmptyString) rest))
    with (String line_feed
            (String.concat newline
               (EmptyString :: EmptyString
                  :: map (fun _ : JsObject => EmptyString) rest))).
  now rewrite IH.
Qed.

Module KeyFacts.

Lemma has_In (o : JsObject) (k : string) :
  has o k = true <-> In k (Object_keys o).
Proof.
  unfold has. rewrite existsb_exists. split.
  - intros (x & Hx & E). apply String.eqb_eq in E. now subst.
  - intro H. exists k. split; [exact H | apply String.eqb_refl].
Qed.

Lemma existsb_eqb_false (k : string) (keys : list string) :
  existsb (String.eqb k) keys = false <-> ~ In k keys.
Proof.
  rewrite <- not_true_iff_false, existsb_exists. split; intros H H'; apply H.
  - exists k. split; [exact H' | apply String.eqb_refl].
  - destruct H' as (x & Hx & E). apply String.eqb_eq in E. now subst.
Qed.

Lemma Object_keys_replace_value (k : string) (v : Value) (o : JsObject) :
  Object_keys (replace_value k v o) = Object_keys o.
Proof.
  induction o as [|[k' w] o IH]; simpl; [reflexivity|].
  destruct (String.eqb k' k); simpl; [reflexivity | now rewrite IH].
Qed.

Lemma Object_keys_insert_index (i : N) (k : string) (v : Value) (o : JsObject) :
  Object_keys (insert_index i k v o) = insert_key i k (Object_keys o).
Proof.
  induction o as [|[k' w] o IH]; simpl; [reflexivity|].
  destruct (array_index k') as [j|]; [destruct (j <? i)%N|]; simpl;
    rewrite ?IH; reflexivity.
Qed.

(** The keys after a write depend on the keys before and on the key
    written, never on the values. *)
Lemma Object_keys_set (o : JsObject) (k : string) (v : Value) :
  Object_keys (set o k v) = keys_set (Object_keys o) k.
Proof.
  unfold set, keys_set, has. destruct (existsb (String.eqb k) (Object_keys o)).
  - apply Object_keys_replace_value.
  - destruct (String.eqb k "__proto__"); [reflexivity|].
    destruct (array_index k).
    + apply Object_keys_insert_index.
    + unfold Object_keys. now rewrite map_app.
Qed.

Lemma Object_keys_forEach_set (cols : list string) :
  forall (index : nat) (row : list Value) (entry : JsObject),
    Object_keys (forEach_set cols index row entry) =
    fold_left keys_set cols (Object_keys entry).
Proof.
  induction cols as [|col cols IH]; intros index row entry; simpl;
    [reflexivity|].
  now rewrite IH, Object_keys_set.
Qed.

Lemma In_insert_key (i : N) (k h : string) (keys : list string) :
  In h (insert_key i k keys) <-> h = k \/ In h keys.
Proof.
  induction keys as [|k' keys IH]; simpl; [intuition congruence|].
  destruct (array_index k') as [j|]; [destruct (j <? i)%N|]; simpl;
    rewrite ?IH; intuition congruence.
Qed.

Lemma In_keys_set (keys : list string) (k h : string) :
  k <> "__proto__" ->
  In h (keys_set keys k) <-> h = k \/ In h keys.
Proof.
  intro Hk. apply String.eqb_neq in Hk.
  unfold keys_set. destruct (existsb (String.eqb k) keys) eqn:E.
  - split; [now right|]. intros [->|H]; [|exact H].
    apply existsb_exists in E as (x & Hx & E). apply String.eqb_eq in E.
    now subst.
  - rewrite Hk. destruct (array_index k).
    + apply In_insert_key.
    + rewrite in_app_iff. simpl. intuition congruence.
Qed.

Lemma NoDup_insert_key (i : N) (k : string) (keys : list string) :
  ~ In k keys -> NoDup keys -> NoDup (insert_key i k keys).
Proof.
  intros Hk Hnd. induction Hnd as [|k' keys Hk' Hnd IH]; simpl.
  - constructor; [tauto | constructor].
  - assert (Hall : NoDup (k :: k' :: keys))
      by (constructor; [exact Hk | now constructor]).
    destruct (array_index k') as [j|]; [destruct (j <? i)%N|]; try exact Hall.
    constructor.
    + rewrite In_insert_key. intros [->|H]; [|contradiction].
      apply Hk. now left.
    + apply IH. intro H. apply Hk. now right.
Qed.

Lemma NoDup_keys_set (keys : list string) (k : string) :
  NoDup keys -> NoDup (keys_set keys k).
Proof.
  intro Hnd. unfold keys_set.
  destruct (existsb (String.eqb k) keys) eqn:E; [exact Hnd|].
  destruct (String.eqb k "__proto__"); [exact Hnd|].
  apply existsb_eqb_false in E. destruct (array_index k).
  - now apply NoDup_insert_key.
  - apply NoDup_app; [exact Hnd | repeat constructor; tauto |].
    intros x Hx [<-|[]]. contradiction.
Qed.

Lemma fold_keys_set (cols : list string) :
  forall keys : list string,
    NoDup keys ->
    ~ In "__proto__" cols ->
    NoDup (fold_left keys_set cols keys)
    /\ forall h, In h (fold_left keys_set cols keys) <-> In h cols \/ In h keys.
Proof.
  induction cols as [|col cols IH]; intros keys Hnd Hproto; simpl.
  - split; [exact Hnd | tauto].
  - assert (Hcol : col <> "__proto__") by (intros ->; apply Hproto; now left).
    destruct (IH (keys_set keys col) (NoDup_keys_set _ _ Hnd)) as [H1 H2].
    { intro H. apply Hproto. now right. }
    split; [exact H1|]. intro h. rewrite H2, (In_keys_set _ _ _ Hcol).
    intuition congruence.
Qed.

(** With distinct plain names, none yet a key, the names are appended in
    their order. *)
Lemma fold_keys_set_fresh (cols : list string) :
  forall keys : list string,
    NoDup cols ->
    Forall plain_name cols ->
    (forall c, In c cols -> ~ In c keys) ->
    fold_left keys_set cols keys = (keys ++ cols)%list.
Proof.
  induction cols as [|col cols IH]; intros keys Hnd Hni Hfresh; simpl.
  - now rewrite app_nil_r.
  - inversion Hnd as [|? ? Hnotin Hnd']; subst.
    inversion Hni as [|? ? [Hcol Hproto] Hni']; subst.
    apply String.eqb_neq in Hproto.
    unfold keys_set at 2.
    rewrite (proj2 (existsb_eqb_false col keys) (Hfresh col (or_introl eq_refl))).
    rewrite Hproto, Hcol, IH; try assumption.
    + now rewrite <- app_assoc.
    + intros c Hc. rewrite in_app_iff. simpl.
      intros [H|[->|[]]]; [exact (Hfresh c (or_intror Hc) H) | contradiction].
Qed.

(** The cell a name ends with is that of its last column. *)
Lemma get_forEach_set_last (cols : list string) :
  forall (index : nat) (row : list Value) (entry : JsObject) (c : string),
    ~ In "__proto__" cols ->
    (forall j, nth_error cols j = Some c ->
       (forall j', j < j' -> nth_error cols j' <> Some c) ->
       get (forEach_set cols index row entry) c = nth (index + j) row VUndefined)
    /\ (~ In c cols -> get (forEach_set cols index row entry) c = get entry c).
Proof.
  induction cols as [|col rest IH]; intros index row entry c Hproto.
  - split; [intros [|j]; discriminate | reflexivity].
  - simpl forEach_set.
    assert (Hcol : col <> "__proto__") by (intros ->; apply Hproto; now left).
    assert (Hrest : ~ In "__proto__" rest) by (intro; apply Hproto; now right).
    destruct (IH (S index) row (set entry col (nth index row VUndefined)) c Hrest)
      as [IHin IHout].
    split.
    + intros [|j] Hj Hlast; simpl in Hj.
      * injection Hj as ->. rewrite IHout.
        { rewrite get_set_same by exact Hcol. f_equal. lia. }
        intro Hin. apply In_nth_error in Hin as (j' & Hj').
        apply (Hlast (S j')); [lia | exact Hj'].
      * rewrite (IHin j Hj); [f_equal; lia|].
        intros j' Hlt. apply (Hlast (S j')). lia.
    + intro Hc. rewrite IHout by (intro; apply Hc; now right).
      apply get_set_other. intros ->. apply Hc. now left.
Qed.

End KeyFacts.

Import KeyFacts.

(** X6.  For column names other than [__proto__]: the record built for a
    row holds, under a column name, the cell of the last column of that
    name; a column beyond the end of the row gives a property that is there
    with the value undefined; a name that is no column is no property of
    the record, and reads as what Object.prototype gives for it. *)
Theorem record_fields_by_column :
  forall (cols : list string) (row : list Value),
    ~ In "__proto__" cols ->
    (forall j c, nth_error cols j = Some c ->
       (forall j', j < j' -> nth_error cols j' <> Some c) ->
       get (entry_of cols row) c = nth j row VUndefined)
    /\ (forall j c, nth_error cols j = Some c ->
          (forall j', j < j' -> nth_error cols j' <> Some c) ->
          List.length row <= j ->
          get (entry_of cols row) c = VUndefined
          /\ has (entry_of cols row) c = true)
    /\ (forall c, ~ In c cols ->
          has (entry_of cols row) c = false
          /\ get (entry_of cols row) c =
             match inherited c with
             | Some v => v
             | None => VUndefined
             end).
Proof.
  intros cols row Hproto.
  assert (Hkeys : forall c, In c (Object_keys (entry_of cols row)) <-> In c cols).
  { intro c. unfold entry_of. rewrite Object_keys_forEach_set.
    destruct (fold_keys_set cols [] (NoDup_nil _) Hproto) as [_ H].
    rewrite H. simpl. tauto. }
  split; [|split].
  - intros j c Hj Hlast. unfold entry_of.
    destruct (get_forEach_set_last cols 0 row [] c Hproto) as [H _].
    now rewrite (H j Hj Hlast).
  - intros j c Hj Hlast Hshort. split.
    + unfold entry_of.
      destruct (get_forEach_set_last cols 0 row [] c Hproto) as [H _].
      rewrite (H j Hj Hlast). now apply nth_overflow.
    + apply has_In, Hkeys. eapply nth_error_In, Hj.
  - intros c Hc.
    assert (Hhas : has (entry_of cols row) c = false).
    { apply not_true_iff_false. rewrite has_In, Hkeys. exact Hc. }
    split; [exact Hhas | now apply get_missing].
Qed.

(** Two columns of one name and a row of one cell. *)
Lemma record_fields_by_column_witness :
  get (entry_of ["sl"; "sl"] [VNull]) "sl" = VUndefined.
Proof.
  apply (proj1 (proj2 (record_fields_by_column ["sl"; "sl"] [VNull]
                         ltac:(simpl; intuition discriminate))) 1 "sl").
  - reflexivity.
  - intros [|[|[|j']]] Hlt; try lia; discriminate.
  - simpl. lia.
Defined.

(** X7.  For column names other than [__proto__]: all records built from
    one column list have the same keys in the same order, whatever the
    rows hold: the keys are distinct, they are exactly the column names,
    and they are the column list itself when its names are distinct and
    none is an array index. *)
Theorem records_share_their_keys :
  forall (cols : list string) (row row' : list Value),
    ~ In "__proto__" cols ->
    Object_keys (entry_of cols row) = Object_keys (entry_of cols row')
    /\ NoDup (Object_keys (entry_of cols row))
    /\ (forall c, In c (Object_keys (entry_of cols row)) <-> In c cols)
    /\ (NoDup cols -> Forall (fun c => array_index c = None) cols ->
        Object_keys (entry_of cols row) = cols).
Proof.
  intros cols row row' Hproto. unfold entry_of.
  rewrite !Object_keys_forEach_set.
  destruct (fold_keys_set cols [] (NoDup_nil _) Hproto) as [Hnd Hin].
  split; [reflexivity|]. split; [exact Hnd|]. split.
  - intro c. rewrite Hin. simpl. tauto.
  - intros Hcols Hni. rewrite fold_keys_set_fresh; try assumption; [reflexivity| |tauto].
    rewrite Forall_forall in *. intros c Hc. split; [now apply Hni|].
    intros ->. contradiction.
Qed.

(** The five columns of the query, and two rows. *)
Lemma records_share_their_keys_witness :
  Object_keys (entry_of example_keys [VNull]) =
  Object_keys (entry_of example_keys []).
Proof.
  refine (proj1 (records_share_their_keys example_keys [VNull] [] _)).
  simpl. intuition discriminate.
Defined.

Module PipelineFacts.

(** The exported line of the record of a full row, under the names of the
    columns: the texts of its cells, in column order. *)
Lemma csvRow_entry_of (cols : list string) (row : list Value) :
  NoDup cols -> ~ In "__proto__" cols -> List.length row = List.length cols ->
  Csv.csvRow cols (entry_of cols row) = String.concat "," (map field_text row).
Proof.
  intros Hnd Hproto Hlen. rewrite csvRow_fields. f_equal.
  apply nth_error_ext. intro j. rewrite !nth_error_map.
  destruct (nth_error cols j) as [c|] eqn:E; simpl.
  - rewrite (get_entry_of cols row j c Hnd Hproto E).
    assert (Hj : j < List.length row).
    { rewrite Hlen. apply nth_error_Some. congruence. }
    now rewrite (nth_error_nth' row VUndefined Hj).
  - apply nth_error_None in E. rewrite <- Hlen in E.
    apply nth_error_None in E. now rewrite E.
Qed.

Lemma readDbFileAndQuery_dbModule (env : Env) (filePath : string) (m : Machine) :
  dbModule (snd (readDbFileAndQuery env filePath m)) = dbModule m.
Proof.
  destruct m as [[module|] t].
  - change {| dbModule := Some module; trace := t |} with (at_ module t).
    rewrite readDbFileAndQuery_run.
    destruct (fs_readFileSync env filePath) as [filebuffer|e]; [|reflexivity].
    destruct (Database_new module filebuffer) as [d|e]; [|reflexivity].
    destruct (db_exec d QUERY); reflexivity.
  - now rewrite readDbFileAndQuery_unready.
Qed.

(** Every path through the export handler for records that are there. *)
Lemma export_to_csv_run (env : Env) (m : Machine) (first : JsObject)
  (rest : list JsObject) :
  export_to_csv env (Some (first :: rest)) m =
  let content := Csv.csvContent (first :: rest) in
  if fst (showSaveDialog env) || no_path (snd (showSaveDialog env))
  then (Normal (failure "Canceled"), logged [EvSaveDialog] m)
  else
    let p := match snd (showSaveDialog env) with
             | Some p => p
             | None => EmptyString
             end in
    match fs_writeFileSync env p content with
    | Normal _ =>
        (Normal {| success := true;
                   env_message :=
                     Some ("Data successfully exported to CSV at: " ++ p);
                   env_filePath := None; env_fileName := None;
                   env_data := None |},
         logged [EvWriteFile p content; EvSaveDialog] m)
    | Throw e =>
        (Normal (failure ("Failed to save CSV file: " ++ message e)),
         logged [EvConsoleError "CSV Write Failed:"; EvWriteFile p content;
                 EvSaveDialog] m)
    end.
Proof.
  unfold export_to_csv. simpl no_data. cbv iota zeta.
  destruct (showSaveDialog env) as [canceled filePath]. cbn [fst snd].
  unfold bind at 1. simpl (log _ _).
  destruct (canceled || no_path filePath); [reflexivity|].
  unfold try_catch, try_catch_finally, bind, log, modify, settle, ret, logged.
  simpl. destruct (fs_writeFileSync env _ _); reflexivity.
Qed.

(** Every path through the load handler. *)
Lemma load_database_log_run (env : Env) (m : Machine) :
  load_database_log env m =
  if fst (showOpenDialog env)
     || (List.length (snd (showOpenDialog env)) =? 0)%nat
  then (Normal (failure "Canceled"), logged [EvOpenDialog] m)
  else
    let filePath := hd EmptyString (snd (showOpenDialog env)) in
    match readDbFileAndQuery env filePath (logged [EvOpenDialog] m) with
    | (Normal data, m') =>
        (Normal {| success := true; env_message := None;
                   env_filePath := Some filePath;
                   env_fileName := Some (path_basename env filePath);
                   env_data := Some data |}, m')
    | (Throw error, m') =>
        (Normal {| success := false; env_message := Some (message error);
                   env_filePath := Some filePath; env_fileName := None;
                   env_data := None |}, m')
    end.
Proof.
  unfold load_database_log.
  destruct (showOpenDialog env) as [canceled filePaths]. cbn [fst snd].
  unfold bind at 1. unfold log at 1, modify.
  change {| dbModule := dbModule m; trace := EvOpenDialog :: trace m |}
    with (logged [EvOpenDialog] m).
  destruct (canceled || (List.length filePaths =? 0)%nat); [reflexivity|].
  unfold try_catch, try_catch_finally, bind. cbv beta iota zeta.
  destruct (readDbFileAndQuery env (hd EmptyString filePaths)
              (logged [EvOpenDialog] m)) as [[data|error] m']; reflexivity.
Qed.

End PipelineFacts.

Import PipelineFacts.

(** X8.  Extraction followed by export.  When the query answers rows that
    are as long as the column list, under distinct column names none of
    which is an array index or [__proto__], the document of the extracted
    records is the line of the relabelled column names followed by, for
    each row in order, the texts of its cells joined by commas.  For the
    five columns of the query the header line is SL,Sensor Name,STATUS,
    Temperature (C),Time Stamp. *)
Theorem extract_then_export :
  forall (env : Env) (filePath : string) (module : SqlJsModule)
         (t : list Event) (filebuffer : Buffer) (d : Database)
         (first : QueryExecResult) (others : list QueryExecResult),
    fs_readFileSync env filePath = Normal filebuffer ->
    Database_new module filebuffer = Normal d ->
    db_exec d QUERY = Normal (first :: others) ->
    values first <> [] ->
    NoDup (columns first) ->
    Forall plain_name (columns first) ->
    Forall (fun row => List.length row = List.length (columns first))
           (values first) ->
    exists data,
      fst (readDbFileAndQuery env filePath (at_ module t)) = Normal data
      /\ Csv.csvContent data =
         String.concat newline
           (String.concat "," (map Csv.csvHeader (columns first))
              :: map (fun row => String.concat "," (map field_text row))
                     (values first))
      /\ (columns first = example_keys ->
          Csv.csvHeaders data =
          "SL,Sensor Name,STATUS,Temperature (C),Time Stamp").
Proof.
  intros env filePath module t filebuffer d first others
    Hread Hopen Hexec Hrows Hnd Hni Hfull.
  assert (Hproto : ~ In "__proto__" (columns first)).
  { intro H. rewrite Forall_forall in Hni. now destruct (Hni _ H). }
  exists (map (entry_of (columns first)) (values first)).
  split.
  { rewrite readDbFileAndQuery_run, Hread, Hopen, Hexec. simpl.
    destruct (values first); [contradiction | reflexivity]. }
  destruct (values first) as [|row0 rows] eqn:Erows; [contradiction|].
  assert (Hkeys : Object_keys (entry_of (columns first) row0) = columns first).
  { unfold entry_of. rewrite Object_keys_forEach_set.
    now rewrite fold_keys_set_fresh. }
  split.
  - cbn [map]. unfold Csv.csvContent. rewrite join_VString, csvHeaders_labels.
    unfold Csv.csvRows. cbn [Csv.headers_of]. rewrite Hkeys.
    f_equal. f_equal.
    change (entry_of (columns first) row0 :: map (entry_of (columns first)) rows)
      with (map (entry_of (columns first)) (row0 :: rows)).
    rewrite map_map.
    change (String.concat "," (map field_text row0)
              :: map (fun row => String.concat "," (map field_text row)) rows)
      with (map (fun row => String.concat "," (map field_text row))
                (row0 :: rows)).
    apply map_ext_in. intros row Hin.
    apply csvRow_entry_of; [exact Hnd | exact Hproto |].
    rewrite Forall_forall in Hfull. now apply Hfull.
  - intro Hcols. cbn [map]. rewrite csvHeaders_labels, Hkeys, Hcols. reflexivity.
Qed.

(** The table of two rows is exported under the header of the five columns. *)
Lemma extract_then_export_witness :
  exists data,
    fst (readDbFileAndQuery an_env "logs.db" (at_ logs_module [])) = Normal data
    /\ Csv.csvHeaders data = "SL,Sensor Name,STATUS,Temperature (C),Time Stamp".
Proof.
  destruct (extract_then_export an_env "logs.db" logs_module [] "bytes"
              logs_database two_rows_result [])
    as (data & Hrun & _ & Hhead).
  - reflexivity.
  - reflexivity.
  - reflexivity.
  - discriminate.
  - repeat constructor; simpl; intuition discriminate.
  - repeat constructor; discriminate.
  - repeat constructor.
  - exists data. split; [exact Hrun | now apply Hhead].
Defined.

(** X9.  What a call of [readDbFileAndQuery] touches: it writes no file,
    initialises nothing and shows no dialog; it reads at most one file, the
    one it was given, and executes at most one statement, the fixed query.
    Before the library is loaded it touches nothing at all. *)
Theorem extraction_footprint :
  forall (env : Env) (filePath : string) (m : Machine),
    exists completion new,
      readDbFileAndQuery env filePath m = (completion, logged new m)
      /\ count is_write new = 0
      /\ count is_init new = 0
      /\ count is_dialog new = 0
      /\ count is_read new <= 1
      /\ count is_exec new <= 1
      /\ (forall p, In (EvReadFile p) new -> p = filePath)
      /\ (forall d sql, In (EvExec d sql) new -> sql = QUERY)
      /\ (dbModule m = None -> new = []).
Proof.
  intros env filePath [[module|] t].
  - change {| dbModule := Some module; trace := t |} with (at_ module t).
    rewrite readDbFileAndQuery_run.
    destruct (fs_readFileSync env filePath) as [filebuffer|e].
    2: { exists (Throw (wrapped e)), [caught; EvReadFile filePath].
         repeat split; simpl; auto; try discriminate.
         - intros p [H|[H|[]]]; try discriminate; congruence.
         - intros d sql [H|[H|[]]]; discriminate. }
    destruct (Database_new module filebuffer) as [d|e].
    2: { exists (Throw (wrapped e)), [caught; EvReadFile filePath].
         repeat split; simpl; auto; try discriminate.
         - intros p [H|[H|[]]]; try discriminate; congruence.
         - intros d sql [H|[H|[]]]; discriminate. }
    destruct (db_exec d QUERY) as [result|e].
    + exists (Normal (records_of result)), (EvClose d :: queried filePath d []).
      repeat split; simpl; auto; try discriminate.
      * intros p [H|[H|[H|[H|[H|[]]]]]]; try discriminate; congruence.
      * intros d' sql [H|[H|[H|[H|[H|[]]]]]]; try discriminate; congruence.
    + exists (Throw (wrapped e)), (EvClose d :: caught :: queried filePath d []).
      repeat split; simpl; auto; try discriminate.
      * intros p [H|[H|[H|[H|[H|[H|[]]]]]]]; try discriminate; congruence.
      * intros d' sql [H|[H|[H|[H|[H|[H|[]]]]]]]; try discriminate; congruence.
  - exists (Throw (Error "SQL.js library not initialized.")), [].
    split; [reflexivity|]. unfold count. simpl.
    do 3 (split; [reflexivity|]). do 2 (split; [lia|]).
    split; [now intros|]. split; [now intros|]. reflexivity.
Qed.

(** X10.  Before the library is loaded, [readDbFileAndQuery] throws the
    error SQL.js library not initialized. as it is (not wrapped) and leaves
    the machine as it was; the load handler answers a failure with that
    message and the chosen path. *)
Theorem extraction_before_initialization :
  forall (env : Env) (filePath : string) (m : Machine),
    dbModule m = None ->
    readDbFileAndQuery env filePath m =
      (Throw (Error "SQL.js library not initialized."), m)
    /\ (forall others,
          showOpenDialog env = (false, filePath :: others) ->
          load_database_log env m =
          (Normal {| success := false;
                     env_message := Some "SQL.js library not initialized.";
                     env_filePath := Some filePath;
                     env_fileName := None;
                     env_data := None |},
           logged [EvOpenDialog] m)).
Proof.
  intros env filePath m Hnone. split.
  - now apply readDbFileAndQuery_unready.
  - intros others Hdialog. rewrite load_database_log_run, Hdialog.
    cbn [fst snd hd orb List.length Nat.eqb].
    now rewrite readDbFileAndQuery_unready.
Qed.

(** At start the library is not loaded. *)
Lemma extraction_before_initialization_witness :
  fst (readDbFileAndQuery an_env "logs.db" Loop.fresh) =
  Throw (Error "SQL.js library not initialized.").
Proof.
  now rewrite (proj1 (extraction_before_initialization an_env "logs.db"
                        Loop.fresh eq_refl)).
Defined.

(** Every path through the export handler, by what it leaves behind. *)
Lemma export_to_csv_effects :
  forall (env : Env) (m : Machine) (data : option (list JsObject)),
    exists answer new,
      export_to_csv env data m = (Normal answer, logged new m)
      /\ count is_write new <= 1
      /\ count is_read new = 0
      /\ count is_init new = 0
      /\ (forall p content, In (EvWriteFile p content) new ->
            exists records,
              data = Some records /\ records <> []
              /\ content = Csv.csvContent records
              /\ showSaveDialog env = (false, Some p) /\ p <> EmptyString)
      /\ (success answer = true ->
            exists p records,
              data = Some records
              /\ showSaveDialog env = (false, Some p)
              /\ fs_writeFileSync env p (Csv.csvContent records) = Normal tt
              /\ In (EvWriteFile p (Csv.csvContent records)) new
              /\ env_message answer =
                 Some ("Data successfully exported to CSV at: " ++ p))
      /\ (forall p records e,
            data = Some records -> records <> [] ->
            showSaveDialog env = (false, Some p) -> p <> EmptyString ->
            fs_writeFileSync env p (Csv.csvContent records) = Throw e ->
            answer = failure ("Failed to save CSV file: " ++ message e)).
Proof.
  intros env m data.
  destruct data as [[|first rest]|].
  1, 3: exists (failure "No data provided for export."), [];
    (split; [now destruct m|]); unfold count; simpl;
    (split; [lia|]); (split; [reflexivity|]); (split; [reflexivity|]);
    (split; [now intros|]); (split; [discriminate|]);
    intros; congruence.
  rewrite export_to_csv_run. cbv zeta.
  destruct (showSaveDialog env) as [canceled filePath] eqn:Hdialog.
  cbn [fst snd].
  destruct canceled; cbn [orb].
  { exists (failure "Canceled"), [EvSaveDialog].
    split; [reflexivity|]. unfold count. simpl.
    split; [lia|]. split; [reflexivity|]. split; [reflexivity|].
    split; [intros p c [H|[]]; discriminate|]. split; [discriminate|].
    intros; congruence. }
  destruct filePath as [p|]; cbn [no_path].
  2: { exists (failure "Canceled"), [EvSaveDialog].
       split; [reflexivity|]. unfold count. simpl.
       split; [lia|]. split; [reflexivity|]. split; [reflexivity|].
       split; [intros p c [H|[]]; discriminate|]. split; [discriminate|].
       intros; congruence. }
  destruct (String.eqb_spec p EmptyString) as [->|Hp].
  { exists (failure "Canceled"), [EvSaveDialog].
    split; [reflexivity|]. unfold count. simpl.
    split; [lia|]. split; [reflexivity|]. split; [reflexivity|].
    split; [intros p c [H|[]]; discriminate|]. split; [discriminate|].
    intros p records e _ _ H Hne. injection H as <-. contradiction. }
  destruct (fs_writeFileSync env p (Csv.csvContent (first :: rest)))
    as [[]|e] eqn:Hwrite.
  - eexists _, [EvWriteFile p (Csv.csvContent (first :: rest)); EvSaveDialog].
    split; [reflexivity|]. unfold count. simpl.
    split; [lia|]. split; [reflexivity|]. split; [reflexivity|].
    split; [|split].
    + intros p' c [H|[H|[]]]; [|discriminate]. injection H as <- <-.
      exists (first :: rest). repeat split; try assumption; discriminate.
    + intros _. exists p, (first :: rest).
      repeat split; try assumption. now left.
    + intros p' records e Hdata _ H _ Hthrow.
      injection Hdata as <-. injection H as <-. congruence.
  - eexists _, [EvConsoleError "CSV Write Failed:";
                EvWriteFile p (Csv.csvContent (first :: rest)); EvSaveDialog].
    split; [reflexivity|]. unfold count. simpl.
    split; [lia|]. split; [reflexivity|]. split; [reflexivity|].
    split; [|split].
    + intros p' c [H|[H|[H|[]]]]; try discriminate. injection H as <- <-.
      exists (first :: rest). repeat split; try assumption; discriminate.
    + discriminate.
    + intros p' records e' Hdata _ H _ Hthrow.
      injection Hdata as <-. injection H as <-. congruence.
Qed.

(** X11.  For data that is absent or an array of records: whenever the
    export handler answers, it has read no file and initialised nothing;
    it has written at most once, and only the document of the records it
    was given, to the non-empty path the save dialog returned without
    being canceled.  It answers success only after a write that succeeded,
    and a write that throws is answered with Failed to save CSV file:
    followed by the message. *)
Theorem export_writes_the_document_once :
  forall (env : Env) (m m' : Machine) (data : option (list JsObject))
         (answer : Envelope),
    export_to_csv env data m = (Normal answer, m') ->
    exists new,
      m' = logged new m
      /\ count is_write new <= 1
      /\ count is_read new = 0
      /\ count is_init new = 0
      /\ (forall p content, In (EvWriteFile p content) new ->
            exists records,
              data = Some records /\ records <> []
              /\ content = Csv.csvContent records
              /\ showSaveDialog env = (false, Some p) /\ p <> EmptyString)
      /\ (success answer = true ->
            exists p records,
              data = Some records
              /\ showSaveDialog env = (false, Some p)
              /\ fs_writeFileSync env p (Csv.csvContent records) = Normal tt
              /\ In (EvWriteFile p (Csv.csvContent records)) new
              /\ env_message answer =
                 Some ("Data successfully exported to CSV at: " ++ p))
      /\ (forall p records e,
            data = Some records -> records <> [] ->
            showSaveDialog env = (false, Some p) -> p <> EmptyString ->
            fs_writeFileSync env p (Csv.csvContent records) = Throw e ->
            answer = failure ("Failed to save CSV file: " ++ message e)).
Proof.
  intros env m m' data answer Hrun.
  destruct (export_to_csv_effects env m data) as (answer0 & new & Hrun0 & H).
  rewrite Hrun0 in Hrun. injection Hrun as <- <-.
  exists new. split; [reflexivity | exact H].
Qed.

(** The example record, exported to the path the sample dialog returns. *)
Lemma export_writes_the_document_once_witness :
  exists new,
    snd (export_to_csv an_env (Some [example_record]) Loop.fresh) =
      logged new Loop.fresh
    /\ count is_write new <= 1.
Proof.
  destruct (export_writes_the_document_once an_env Loop.fresh
              (snd (export_to_csv an_env (Some [example_record]) Loop.fresh))
              (Some [example_record])
              {| success := true;
                 env_message :=
                   Some "Data successfully exported to CSV at: out.csv";
                 env_filePath := None; env_fileName := None;
                 env_data := None |})
    as (new & Hm & Hcount & _).
  - reflexivity.
  - exists new. split; [exact Hm | exact Hcount].
Defined.

(** X12.  The load handler never throws and leaves [dbModule] as it was.
    A canceled dialog, or one without a path, is answered Canceled after
    the dialog alone.  Otherwise the first path is extracted: a normal
    result is answered with success, the records, the path and its base
    name; a thrown error with failure, its message and the path. *)
Theorem load_answers_never_throw :
  forall (env : Env) (m : Machine),
    exists answer m',
      load_database_log env m = (Normal answer, m')
      /\ dbModule m' = dbModule m
      /\ (fst (showOpenDialog env) = true \/ snd (showOpenDialog env) = [] ->
          answer = failure "Canceled" /\ m' = logged [EvOpenDialog] m)
      /\ (forall p others,
            showOpenDialog env = (false, p :: others) ->
            env_filePath answer = Some p
            /\ match fst (readDbFileAndQuery env p (logged [EvOpenDialog] m)) with
               | Normal data =>
                   success answer = true
                   /\ env_data answer = Some data
                   /\ env_fileName answer = Some (path_basename env p)
                   /\ env_message answer = None
               | Throw e =>
                   success answer = false
                   /\ env_message answer = Some (message e)
                   /\ env_data answer = None
               end).
Proof.
  intros env m. rewrite load_database_log_run.
  destruct (showOpenDialog env) as [canceled filePaths]. cbn [fst snd].
  destruct canceled; cbn [orb].
  { exists (failure "Canceled"), (logged [EvOpenDialog] m).
    split; [reflexivity|]. split; [reflexivity|]. split; [now intros|].
    intros p others H. discriminate H. }
  destruct filePaths as [|p others]; cbn [List.length Nat.eqb hd].
  { exists (failure "Canceled"), (logged [EvOpenDialog] m).
    split; [reflexivity|]. split; [reflexivity|]. split; [now intros|].
    intros p others H. discriminate H. }
  pose proof (readDbFileAndQuery_dbModule env p (logged [EvOpenDialog] m)) as Hdb.
  destruct (readDbFileAndQuery env p (logged [EvOpenDialog] m))
    as [[data|e] m'] eqn:Hrun; cbn [snd] in Hdb.
  - eexists _, m'. split; [reflexivity|]. split; [exact Hdb|]. split.
    + intros [H|H]; discriminate.
    + intros p' others' H. injection H as <- <-. rewrite Hrun. simpl.
      repeat split.
  - eexists _, m'. split; [reflexivity|]. split; [exact Hdb|]. split.
    + intros [H|H]; discriminate.
    + intros p' others' H. injection H as <- <-. rewrite Hrun. simpl.
      repeat split.
Qed.

(** X13.  While [dbModule] is unset: the wasm file is looked for under
    the application directory in development mode and under the resources
    path otherwise.  When it is missing, the library is initialised without
    it after an error is logged; when it is there and readable, with its
    bytes; when it is there and reading it throws, the call throws that
    error without calling [initSqlJs] at all. *)
Theorem wasm_file_policy :
  forall (env : Env) (m : Machine),
    dbModule m = None ->
    (NODE_ENV env = Some "development" ->
     WASM_PATH env =
     path_join env [dirname env; "node_modules"; "sql.js"; "dist";
                    "sql-wasm.wasm"])
    /\ (NODE_ENV env <> Some "development" ->
        WASM_PATH env = path_join env [resourcesPath env; "sql-wasm.wasm"])
    /\ (fs_existsSync env (WASM_PATH env) = false ->
        initializeDbModule env m =
        match initSqlJs env None with
        | Normal module =>
            (Normal tt,
             loaded module [ready; EvInitSqlJs None; not_found env] m)
        | Throw e =>
            (Throw e, logged [report e; EvInitSqlJs None; not_found env] m)
        end)
    /\ (forall wasmBinary,
          fs_existsSync env (WASM_PATH env) = true ->
          fs_readFileSync env (WASM_PATH env) = Normal wasmBinary ->
          initializeDbModule env m =
          match initSqlJs env (Some wasmBinary) with
          | Normal module =>
              (Normal tt,
               loaded module [ready; EvInitSqlJs (Some wasmBinary);
                              EvReadFile (WASM_PATH env)] m)
          | Throw e =>
              (Throw e,
               logged [report e; EvInitSqlJs (Some wasmBinary);
                       EvReadFile (WASM_PATH env)] m)
          end)
    /\ (forall e,
          fs_existsSync env (WASM_PATH env) = true ->
          fs_readFileSync env (WASM_PATH env) = Throw e ->
          initializeDbModule env m =
            (Throw e, logged [report e; EvReadFile (WASM_PATH env)] m)
          /\ initializations (snd (initializeDbModule env m)) =
             initializations m).
Proof.
  intros env m Hnone. split; [|split; [|split; [|split]]].
  - intro H. unfold WASM_PATH. now rewrite H.
  - intro H. unfold WASM_PATH. destruct (NODE_ENV env) as [mode|]; [|reflexivity].
    destruct (String.eqb_spec mode "development") as [->|_];
      [contradiction | reflexivity].
  - intro Hex. rewrite (initializeDbModule_run _ _ Hnone).
    unfold wasm_config, probe. now rewrite Hex.
  - intros wasmBinary Hex Hread. rewrite (initializeDbModule_run _ _ Hnone).
    unfold wasm_config, probe. now rewrite Hex, Hread.
  - intros e Hex Hread. rewrite (initializeDbModule_run _ _ Hnone).
    unfold wasm_config, probe. rewrite Hex, Hread. split; [reflexivity|].
    unfold initializations. cbn [snd logged trace]. now rewrite count_app.
Qed.

(** Without the wasm file the library is still initialised. *)
Lemma wasm_file_policy_witness :
  fst (initializeDbModule an_env Loop.fresh) = Normal tt.
Proof.
  destruct (wasm_file_policy an_env Loop.fresh eq_refl) as (_ & _ & H & _).
  now rewrite (H eq_refl).
Defined.

(** X14.  A call of [initializeDbModule] that returns normally leaves
    [dbModule] set; from then on every error of [readDbFileAndQuery] is a
    wrapped one, never the error of the missing library. *)
Theorem ready_after_normal_return :
  forall (env : Env) (m m' : Machine),
    initializeDbModule env m = (Normal tt, m') ->
    (exists module, dbModule m' = Some module)
    /\ forall (env' : Env) (filePath : string) (e : JsError),
        fst (readDbFileAndQuery env' filePath m') = Throw e ->
        exists cause, e = wrapped cause.
Proof.
  intros env m m' Hrun.
  assert (Hset : exists module, dbModule m' = Some module).
  { destruct (dbModule m) as [module|] eqn:Hdb.
    - rewrite (initializeDbModule_ready _ _ _ Hdb) in Hrun.
      injection Hrun as <-. now exists module.
    - rewrite (initializeDbModule_run _ _ Hdb) in Hrun.
      destruct (wasm_config env) as [config|e]; [|discriminate].
      destruct (initSqlJs env config) as [module|e]; [|discriminate].
      injection Hrun as <-. now exists module. }
  split; [exact Hset|].
  destruct Hset as [module Hset]. intros env' filePath e.
  destruct m' as [dbm t]. simpl in Hset. subst dbm.
  change {| dbModule := Some module; trace := t |} with (at_ module t).
  rewrite readDbFileAndQuery_run.
  destruct (fs_readFileSync env' filePath) as [filebuffer|e0];
    [|intro H; injection H as <-; now exists e0].
  destruct (Database_new module filebuffer) as [d|e0];
    [|intro H; injection H as <-; now exists e0].
  destruct (db_exec d QUERY) as [result|e0];
    [discriminate | intro H; injection H as <-; now exists e0].
Qed.

(** The first call at start returns normally. *)
Lemma ready_after_normal_return_witness :
  exists module, dbModule (snd (initializeDbModule an_env Loop.fresh)) = Some module.
Proof.
  apply (ready_after_normal_return an_env Loop.fresh
           (snd (initializeDbModule an_env Loop.fresh))).
  reflexivity.
Defined.

Module BudgetFacts.

Lemma filter_update {A} (p : A -> bool) (i : nat) (x y : A) (l : list A) :
  nth_error l i = Some x ->
  List.length (filter p (update i y l)) + (if p x then 1 else 0) =
  List.length (filter p l) + (if p y then 1 else 0).
Proof.
  revert i. induction l as [|z l IH]; intros [|i] H; simpl in H;
    try discriminate.
  - injection H as ->. simpl. destruct (p x), (p y); simpl; lia.
  - simpl. specialize (IH i H). destruct (p z); simpl; lia.
Qed.

Lemma initializations_logged (new : list Event) (m : Machine) :
  initializations (logged new m) = count is_init new + initializations m.
Proof. unfold initializations, logged. cbn [trace]. apply count_app. Qed.

Lemma initializations_loaded (module : SqlJsModule) (new : list Event)
  (m : Machine) :
  initializations (loaded module new m) = count is_init new + initializations m.
Proof. unfold initializations, loaded. cbn [trace]. apply count_app. Qed.

Lemma count_init_begin (env : Env) (x : Event) :
  count is_init [x; probe env] = (if is_init x then 1 else 0).
Proof.
  unfold count. cbn [filter]. rewrite is_init_probe. now destruct (is_init x).
Qed.

(** A turn never raises the sum of the initialisations made and the calls
    not yet begun. *)
Lemma turn_budget (a : Action) (c c' : Config) :
  turn a c = Some c' ->
  initializations (machine c') + waiting_room c' <=
  initializations (machine c) + waiting_room c.
Proof.
  unfold turn, waiting_room. destruct a as [i|i].
  - destruct (nth_error (tasks c) i) as [[env| |]|] eqn:Hi; try discriminate.
    destruct (dbModule (machine c)) as [module|] eqn:Hdb.
    + rewrite (initialize_begin_ready _ _ _ Hdb). intro H. injection H as <-.
      cbn [machine tasks].
      pose proof (filter_update not_started i _
                    (after_begin env (Normal Returned)) _ Hi) as Hf.
      simpl in Hf. lia.
    + rewrite (initialize_begin_run _ _ Hdb).
      destruct (wasm_config env) as [config|e]; intro H; injection H as <-;
        cbn [machine tasks]; rewrite initializations_logged, count_init_begin.
      * pose proof (filter_update not_started i _
                      (after_begin env (Normal (Awaiting config))) _ Hi) as Hf.
        simpl in Hf. simpl. lia.
      * pose proof (filter_update not_started i _
                      (after_begin env (Throw e)) _ Hi) as Hf.
        simpl in Hf. simpl. lia.
  - destruct (nth_error (tasks c) i) as [[| settled |]|] eqn:Hi; try discriminate.
    rewrite initialize_resume_run.
    destruct settled as [module|e]; intro H; injection H as <-;
      cbn [machine tasks].
    + rewrite initializations_loaded.
      pose proof (filter_update not_started i _ (Finished (Normal tt)) _ Hi) as Hf.
      simpl in Hf. unfold count. simpl. lia.
    + rewrite initializations_logged.
      pose proof (filter_update not_started i _ (Finished (Throw e)) _ Hi) as Hf.
      simpl in Hf. unfold count. simpl. lia.
Qed.

Lemma run_budget (schedule : list Action) :
  forall c c' : Config,
    run schedule c = Some c' ->
    initializations (machine c') + waiting_room c' <=
    initializations (machine c) + waiting_room c.
Proof.
  induction schedule as [|a schedule IH]; intros c c' H; simpl in H.
  - injection H as <-. lia.
  - destruct (turn a c) as [c1|] eqn:Hturn; [|discriminate].
    pose proof (turn_budget _ _ _ Hturn). specialize (IH _ _ H). lia.
Qed.

(** Once [dbModule] is set, a turn leaves it set and initialises nothing. *)
Lemma turn_when_set (a : Action) (c c' : Config) :
  turn a c = Some c' ->
  dbModule (machine c) <> None ->
  dbModule (machine c') <> None
  /\ initializations (machine c') = initializations (machine c).
Proof.
  unfold turn. intros H Hset. destruct a as [i|i].
  - destruct (nth_error (tasks c) i) as [[env| |]|]; try discriminate.
    destruct (dbModule (machine c)) as [module|] eqn:Hdb; [|contradiction].
    rewrite (initialize_begin_ready _ _ _ Hdb) in H. injection H as <-.
    cbn [machine]. rewrite Hdb. split; [discriminate | reflexivity].
  - destruct (nth_error (tasks c) i) as [[| settled |]|]; try discriminate.
    rewrite initialize_resume_run in H.
    destruct settled as [module|e]; injection H as <-; cbn [machine].
    + rewrite initializations_loaded. split; [discriminate | reflexivity].
    + rewrite initializations_logged. split; [exact Hset | reflexivity].
Qed.

Lemma waiting_room_initial (envs : list Env) :
  waiting_room (initial envs) = List.length envs.
Proof.
  unfold waiting_room, initial. cbn [tasks].
  induction envs as [|env envs IH]; simpl; [reflexivity | now rewrite IH].
Qed.

End BudgetFacts.

Import BudgetFacts.

(** X15.  Once [dbModule] is set, no schedule of further turns unsets it
    or calls [initSqlJs] again. *)
Theorem set_stays_set :
  forall (schedule : list Action) (c c' : Config),
    run schedule c = Some c' ->
    dbModule (machine c) <> None ->
    dbModule (machine c') <> None
    /\ initializations (machine c') = initializations (machine c).
Proof.
  induction schedule as [|a schedule IH]; intros c c' H Hset; simpl in H.
  - injection H as <-. split; [exact Hset | reflexivity].
  - destruct (turn a c) as [c1|] eqn:Hturn; [|discriminate].
    destruct (turn_when_set _ _ _ Hturn Hset) as [Hset1 Hcount1].
    destruct (IH _ _ H Hset1) as [Hset' Hcount']. split; [exact Hset'|].
    now rewrite Hcount', Hcount1.
Qed.

(** X16.  Under any schedule, there are at most as many calls of
    [initSqlJs] as callers: no caller initialises twice. *)
Theorem at_most_one_initialization_per_caller :
  forall (envs : list Env) (schedule : list Action) (c' : Config),
    run schedule (initial envs) = Some c' ->
    initializations (machine c') <= List.length envs.
Proof.
  intros envs schedule c' H. pose proof (run_budget _ _ _ H) as Hb.
  rewrite waiting_room_initial in Hb. unfold initializations at 2 in Hb. simpl in Hb.
  unfold count in Hb. simpl in Hb. lia.
Qed.

(** A late caller and a late continuation, with the library loaded. *)
Lemma set_stays_set_witness :
  exists c',
    run [Begin 0; Resume 1]
        {| machine := at_ a_module [];
           tasks := [NotStarted unreadable; Waiting (Normal logs_module)] |}
      = Some c'
    /\ (dbModule (machine c') <> None
        /\ initializations (machine c') =
           initializations (at_ a_module [])).
Proof.
  eexists. split; [reflexivity|].
  apply (set_stays_set [Begin 0; Resume 1]
           {| machine := at_ a_module [];
              tasks := [NotStarted unreadable; Waiting (Normal logs_module)] |}).
  - reflexivity.
  - discriminate.
Defined.

(** Two interleaved callers make no more than two initialisations. *)
Lemma at_most_one_initialization_per_caller_witness :
  exists c',
    run [Begin 0; Begin 1; Resume 0; Resume 1] (initial [an_env; an_env])
      = Some c'
    /\ initializations (machine c') <= 2.
Proof.
  eexists. split; [reflexivity|].
  apply (at_most_one_initialization_per_caller [an_env; an_env]
           [Begin 0; Begin 1; Resume 0; Resume 1]).
  reflexivity.
Defined.

Module LateFacts.

(** Calls that begin while [dbModule] is set return at once. *)
Lemma late_begins (begins : list nat) :
  forall (c : Config) (module : SqlJsModule),
    dbModule (machine c) = Some module ->
    NoDup begins ->
    (forall i, In i begins ->
       exists env, nth_error (tasks c) i = Some (NotStarted env)) ->
    exists c',
      run (map Begin begins) c = Some c'
      /\ machine c' = machine c
      /\ List.length (tasks c') = List.length (tasks c)
      /\ (forall i, In i begins ->
            nth_error (tasks c') i = Some (Finished (Normal tt)))
      /\ (forall i, ~ In i begins -> nth_error (tasks c') i = nth_error (tasks c) i).
Proof.
  induction begins as [|b begins IH]; intros c module Hset Hnd Htasks.
  - exists c. simpl. split; [reflexivity|]. split; [reflexivity|].
    split; [reflexivity|]. split; [intros i [] | reflexivity].
  - inversion Hnd as [|? ? Hnotin Hnd']; subst.
    destruct (Htasks b (or_introl eq_refl)) as (env & Hb).
    simpl run. unfold turn. rewrite Hb, (initialize_begin_ready _ _ _ Hset).
    set (c1 := {| machine := machine c;
                  tasks := update b (after_begin env (Normal Returned))
                             (tasks c) |}).
    destruct (IH c1 module Hset Hnd') as (c' & Hrun & Hm & Hlen & Hin & Hout).
    { intros i Hi. destruct (Htasks i (or_intror Hi)) as (env' & Hi').
      exists env'. simpl.
      rewrite nth_error_update_other; [exact Hi'|]. intros ->. contradiction. }
    exists c'. split; [exact Hrun|]. split; [exact Hm|].
    split; [|split].
    + rewrite Hlen. apply length_update.
    + intros i [<-|Hi]; [|now apply Hin].
      rewrite (Hout b Hnotin). simpl.
      now rewrite (nth_error_update_same _ _ _ _ Hb).
    + intros i Hi. rewrite Hout by (intro; apply Hi; now right).
      simpl. apply nth_error_update_other. intros ->. apply Hi. now left.
Qed.

Lemma substring_prefix (s t : string) :
  substring 0 (String.length s) (s ++ t) = s.
Proof.
  induction s as [|a s IH]; simpl.
  - now destruct t.
  - now rewrite IH.
Qed.

Lemma append_assoc (s t u : string) : (s ++ t) ++ u = s ++ t ++ u.
Proof. induction s as [|a s IH]; simpl; [reflexivity | now rewrite IH]. Qed.

Lemma replace_all_app (c : ascii) (b s t : string) :
  replace_all c b (s ++ t) = replace_all c b s ++ replace_all c b t.
Proof.
  induction s as [|a s IH]; simpl; [reflexivity|].
  destruct (Ascii.eqb a c); rewrite IH; [|reflexivity].
  now rewrite append_assoc.
Qed.

Lemma replace_all_absent (c : ascii) (b s : string) :
  count_char c s = 0 -> replace_all c b s = s.
Proof.
  induction s as [|a s IH]; simpl; [reflexivity|].
  destruct (Ascii.eqb a c); [discriminate|]. intro H. now rewrite IH.
Qed.

Lemma count_char_removed (c : ascii) (s : string) :
  count_char c (replace_all c EmptyString s) = 0.
Proof.
  induction s as [|a s IH]; simpl; [reflexivity|].
  destruct (Ascii.eqb a c) eqn:E; simpl; rewrite ?E; exact IH.
Qed.

End LateFacts.

Import LateFacts.

(** X17.  When the first caller begins and is continued with success
    before the others begin, the others return at once: one call of
    [initSqlJs] in all, every caller returns normally, whatever the worlds
    of the other callers are, and [dbModule] is the first caller's
    library. *)
Theorem first_caller_serves_the_rest :
  forall (env0 : Env) (others : list Env) (module : SqlJsModule),
    init_outcome env0 = Normal module ->
    exists c',
      run (Begin 0 :: Resume 0 :: map Begin (seq 1 (List.length others)))
          (initial (env0 :: others)) = Some c'
      /\ initializations (machine c') = 1
      /\ dbModule (machine c') = Some module
      /\ tasks c' = map (fun _ => Finished (Normal tt)) (env0 :: others).
Proof.
  intros env0 others module Hout. unfold init_outcome in Hout.
  destruct (wasm_config env0) as [config|e] eqn:Hcfg; [|discriminate].
  cbn [run]. unfold turn at 1. cbn [initial tasks machine map nth_error].
  rewrite (initialize_begin_run env0 fresh eq_refl), Hcfg.
  cbn [update after_begin]. unfold turn at 1. cbn [tasks machine nth_error].
  rewrite initialize_resume_run, Hout. cbn [update].
  set (c2 := {| machine := loaded module [ready]
                             (logged [EvInitSqlJs config; probe env0] fresh);
                tasks := Finished (Normal tt) :: map NotStarted others |}).
  destruct (late_begins (seq 1 (List.length others)) c2 module eq_refl
              (seq_NoDup _ _))
    as (c' & Hrun & Hm & Hlen & Hin & Hkeep).
  { intros i Hi. apply in_seq in Hi. destruct i as [|i]; [lia|].
    cbn [c2 tasks nth_error]. rewrite nth_error_map.
    destruct (nth_error others i) as [env|] eqn:E; [now exists env|].
    apply nth_error_None in E. lia. }
  exists c'. split; [exact Hrun|]. rewrite Hm. split; [|split].
  - unfold c2. cbn [machine]. rewrite initializations_loaded,
      initializations_logged, count_init_begin. reflexivity.
  - reflexivity.
  - apply nth_error_ext. intros [|i].
    + rewrite Hkeep; [reflexivity|]. rewrite in_seq. lia.
    + destruct (nth_error others i) as [env|] eqn:E.
      * rewrite Hin.
        { cbn [map nth_error]. now rewrite nth_error_map, E. }
        apply in_seq.
        assert (i < List.length others) by (apply nth_error_Some; congruence).
        lia.
      * apply nth_error_None in E.
        transitivity (@None Task).
        { apply nth_error_None. rewrite Hlen. cbn [c2 tasks List.length].
          rewrite length_map. lia. }
        symmetry. apply nth_error_None. cbn [map List.length].
        rewrite length_map. lia.
Qed.

(** Three callers, the second in a world where no file can be read. *)
Lemma first_caller_serves_the_rest_witness :
  exists c',
    run [Begin 0; Resume 0; Begin 1; Begin 2]
        (initial [an_env; unreadable; an_env]) = Some c'
    /\ initializations (machine c') = 1.
Proof.
  destruct (first_caller_serves_the_rest an_env [unreadable; an_env] a_module
              eq_refl) as (c' & Hrun & Hcount & _).
  exists c'. split; [exact Hrun | exact Hcount].
Defined.

(** X18.  The file name the save dialog proposes never holds a hyphen;
    for a date text that starts with a year of four characters, a month of
    two and a day of two, separated by hyphens, it is log_data_export_
    followed by year, month and day and by .csv. *)
Theorem export_file_name :
  (forall iso, count_char "-"%char (defaultPath iso) = 0)
  /\ (forall year month day rest,
        String.length year = 4 ->
        String.length month = 2 ->
        String.length day = 2 ->
        count_char "-"%char (year ++ month ++ day) = 0 ->
        defaultPath (year ++ "-" ++ month ++ "-" ++ day ++ rest) =
        "log_data_export_" ++ year ++ month ++ day ++ ".csv").
Proof.
  split.
  - intro iso. unfold defaultPath.
    rewrite !count_char_app, count_char_removed. reflexivity.
  - intros year month day rest Hy Hm Hd Hnone.
    rewrite !count_char_app in Hnone. unfold defaultPath.
    assert (Hcut : substring 0 10 (year ++ "-" ++ month ++ "-" ++ day ++ rest)
                   = year ++ "-" ++ month ++ "-" ++ day).
    { replace 10 with (String.length (year ++ "-" ++ month ++ "-" ++ day))
        by (rewrite !length_append; simpl; lia).
      rewrite <- (substring_prefix (year ++ "-" ++ month ++ "-" ++ day) rest)
        at 2.
      f_equal. now rewrite !append_assoc. }
    rewrite Hcut, !replace_all_app.
    rewrite (replace_all_absent _ _ year), (replace_all_absent _ _ month),
      (replace_all_absent _ _ day) by lia.
    f_equal. change (replace_all "-"%char EmptyString "-") with EmptyString.
    cbn [append]. now rewrite !append_assoc.
Qed.

(** The name proposed on the first of January 2024. *)
Lemma export_file_name_witness :
  defaultPath "2024-01-01T00:00:00.000Z" = "log_data_export_20240101.csv".
Proof.
  apply (proj2 export_file_name "2024" "01" "01" "T00:00:00.000Z");
    reflexivity.
Defined.
